(** * rip-scope: the result cache and its background refresh

    A shallow embedding of [src/modules/cache.ts] (class [CacheManager]) and
    the properties the specification states about it.

    Layout: the model first (JSON key serialisation, file system and host,
    the manager's methods, the event loop), then example data, then the
    theorems. *)

From Stdlib Require Import Ascii ZArith Lia Permutation.
From stdpp Require Import gmap strings list fin_maps pretty.

Local Open Scope Z_scope.

(* ===================================================================== *)
(** * Part I: the model                                                   *)
(* ===================================================================== *)

(** ** JSON.stringify on the cache-key object

    [getCacheKey] serialises [{searchPath, excludePatterns,
    additionalRipgrepArgs}] with [JSON.stringify].  The three fields are
    arrays of strings, so only the string and array cases of the standard
    algorithm (ECMA-262, QuoteJSONString and SerializeJSONArray) are needed.
    Strings are byte strings: a character outside ASCII is carried as its
    UTF-8 bytes, which pass through the quoting unchanged. *)

Module JSON.

Definition dquote : ascii := "034"%char.
Definition backslash : ascii := "092"%char.

(** A lowercase hexadecimal digit: [0] to [9] from code 48, [a] to [f]
    from code 97. *)
Definition hex_digit (n : N) : ascii :=
  if (n <? 10)%N then ascii_of_N (48 + n) else ascii_of_N (87 + n).

(** [\u00XX] for a control character without a short escape. *)
Definition unicode_escape (n : N) : string :=
  String backslash
    (String "u" (String "0" (String "0"
      (String (hex_digit (n / 16)) (String (hex_digit (n mod 16)) EmptyString))))).

(** One code unit of QuoteJSONString. *)
Definition quote_char (c : ascii) : string :=
  let n := N_of_ascii c in
  if (n =? 8)%N then String backslash "b"
  else if (n =? 9)%N then String backslash "t"
  else if (n =? 10)%N then String backslash "n"
  else if (n =? 12)%N then String backslash "f"
  else if (n =? 13)%N then String backslash "r"
  else if (n =? 34)%N then String backslash (String dquote EmptyString)
  else if (n =? 92)%N then String backslash (String backslash EmptyString)
  else if (n <? 32)%N then unicode_escape n
  else String c EmptyString.

Fixpoint quote_body (s : string) : string :=
  match s with
  | EmptyString => EmptyString
  | String c r => quote_char c +:+ quote_body r
  end.

Definition quote (s : string) : string :=
  String dquote (quote_body s +:+ String dquote EmptyString).

(** The elements of an array, separated by commas. *)
Fixpoint join_quoted (l : list string) : string :=
  match l with
  | [] => EmptyString
  | [x] => quote x
  | x :: l' => quote x +:+ "," +:+ join_quoted l'
  end.

Definition stringify_array (l : list string) : string :=
  "[" +:+ join_quoted l +:+ "]".

(** A property name followed by its colon. *)
Definition member (name : string) : string := quote name +:+ ":".

(** Decoding of one quoted code unit, the inverse of [quote_char] on its
    image; it refuses an unescaped double quote.  Only the proofs use it. *)
Definition hex_value (c : ascii) : option N :=
  let n := N_of_ascii c in
  if ((48 <=? n) && (n <=? 57))%N then Some (n - 48)%N
  else if ((97 <=? n) && (n <=? 102))%N then Some (n - 87)%N
  else None.

Definition unquote_char (s : string) : option (ascii * string) :=
  match s with
  | EmptyString => None
  | String c r =>
      if Ascii.eqb c dquote then None
      else if Ascii.eqb c backslash then
        match r with
        | String "b" r' => Some ("008", r')
        | String "t" r' => Some ("009", r')
        | String "n" r' => Some ("010", r')
        | String "f" r' => Some ("012", r')
        | String "r" r' => Some ("013", r')
        | String "u" (String "0" (String "0" (String h (String l r')))) =>
            match hex_value h, hex_value l with
            | Some a, Some b => Some (ascii_of_N (16 * a + b), r')
            | _, _ => None
            end
        | String e r' =>
            if Ascii.eqb e dquote then Some (dquote, r')
            else if Ascii.eqb e backslash then Some (backslash, r')
            else None
        | EmptyString => None
        end
      else Some (c, r)
  end%char.

End JSON.

(** ** Search parameters and the cache key *)

(** The fields of [SearchParams] that [cache.ts] reads. *)
Record SearchParams := mkSearchParams {
  searchPath : list string;
  excludePatterns : list string;
  additionalRipgrepArgs : list string;
  fzfPath : string
}.

(** [getCacheKey]: [JSON.stringify({searchPath, excludePatterns,
    additionalRipgrepArgs})]. *)
Definition getCacheKey (p : SearchParams) : string :=
  "{" +:+ JSON.member "searchPath" +:+ JSON.stringify_array (searchPath p)
  +:+ "," +:+ JSON.member "excludePatterns"
  +:+ JSON.stringify_array (excludePatterns p)
  +:+ "," +:+ JSON.member "additionalRipgrepArgs"
  +:+ JSON.stringify_array (additionalRipgrepArgs p)
  +:+ "}".

(** ** Data model *)

Inductive ItemType := Directory | WorkspaceFile.

(** Modelled from the spec: [types.ts] is not among the sources; section 3
    of the specification gives the fields of a directory item (display-only
    fields are left out; the cache never reads them). *)
Record DirectoryItem := mkItem {
  fullPath : string;
  label : string;
  description : option string;
  itemType : ItemType
}.

(** [CacheEntry].  The stores hold entries written by other runs, which the
    code casts with [as CacheEntry] and re-validates on [version] only;
    [version = None] stands for an entry without the field. *)
Record CacheEntry := mkEntry {
  directories : list DirectoryItem;
  timestamp : Z;
  searchParams : string;
  version : option Z
}.

(** [entry.version === 1] *)
Definition version_is_1 (e : CacheEntry) : bool :=
  bool_decide (version e = Some 1).

(** ** The file system

    The text of a file is kept up to what [JSON.parse] makes of it, and
    [JSON.stringify entry] is the text that parses back to [entry].  A file
    path is kept as the pair (directory, name) that [path.join] was given.
    The map of a directory holds its regular files; sub-directories are
    directories of their own, found under their full path, and a listing
    ([fs_readdirSync]) names them with the files. *)

Inductive FileContent :=
  | EmptyFile                    (* the empty text *)
  | Unparsable                   (* [JSON.parse] throws *)
  | JsonNull                     (* the text [null] *)
  | JsonEntry (e : CacheEntry).  (* an object *)

(** Fault injection: a read-only file system refuses creation, writing
    and deletion; an unavailable one fails every call. *)
Inductive FsMode := Healthy | ReadOnly | Unavailable.

Record FileSystem := mkFs {
  fs_dirs : gmap string (gmap string FileContent);
  fs_mode : FsMode;
  fs_calls : nat   (* number of calls made so far, as a counting stub sees them *)
}.

Definition path_join (d n : string) : string := d +:+ "/" +:+ n.

Definition dir_exists (f : FileSystem) (d : string) : bool :=
  bool_decide (is_Some (fs_dirs f !! d)).

Definition file_lookup (f : FileSystem) (d n : string) : option FileContent :=
  fs_dirs f !! d ≫= λ files, files !! n.

(** Something, file or directory, exists at [path.join d n]. *)
Definition entry_exists (f : FileSystem) (d n : string) : bool :=
  bool_decide (is_Some (file_lookup f d n)) || dir_exists f (path_join d n).

(** ** Host and manager state *)

(** What the extension host provides: the file system, the [globalState]
    memento, the configuration, the storage locations, and the information
    messages shown so far (latest first). *)
Record Host := mkHost {
  fs : FileSystem;
  globalState : gmap string CacheEntry;
  cacheEnabled : bool;               (* ConfigurationManager.isCacheEnabled() *)
  backgroundRefreshEnabled : bool;   (* ConfigurationManager.isBackgroundRefreshEnabled() *)
  globalStoragePath : string;        (* extensionContext.globalStorageUri.fsPath *)
  tmpdir : string;                   (* os.tmpdir() *)
  shown : list string                (* MessageUtils.showInfo *)
}.

(** The fields of [CacheManager].  A promise or a timer is known by its
    handle. *)
Record Manager := mkManager {
  memoryCache : gmap string CacheEntry;
  cacheDir : option string;
  fileCacheDisabled : bool;
  backgroundRefreshes : gmap string nat;
  refreshDebounceTimers : gmap string nat;
  lastRefreshTimes : gmap string Z;
  gitRepoCache : gmap string bool;
  gitCacheTimestamp : Z
}.

(** The event loop: armed [setTimeout] callbacks of
    [triggerBackgroundRefresh] with the parameters they close over, the
    invocations of [performBackgroundRefresh] suspended at
    [await refreshPromise] (by promise handle), and the next fresh handle. *)
Record Loop := mkLoop {
  timers : gmap nat SearchParams;
  suspended : gmap nat SearchParams;
  nextHandle : nat
}.

Record State := mkState {
  mgr : Manager;
  host : Host;
  loop : Loop
}.

Definition REFRESH_BUFFER_MS : Z := 10000.
Definition GIT_CACHE_DURATION : Z := 5 * 60 * 1000.
Definition MAX_GLOBALSTATE_ENTRIES : nat := 1000.
Definition maxAge : Z := 24 * 60 * 60 * 1000.

(** Field updates. *)
Definition with_fs (f : FileSystem) (h : Host) : Host :=
  mkHost f (globalState h) (cacheEnabled h) (backgroundRefreshEnabled h)
         (globalStoragePath h) (tmpdir h) (shown h).
Definition with_globalState (g : gmap string CacheEntry) (h : Host) : Host :=
  mkHost (fs h) g (cacheEnabled h) (backgroundRefreshEnabled h)
         (globalStoragePath h) (tmpdir h) (shown h).
Definition with_shown (l : list string) (h : Host) : Host :=
  mkHost (fs h) (globalState h) (cacheEnabled h) (backgroundRefreshEnabled h)
         (globalStoragePath h) (tmpdir h) l.
Definition with_config (enabled refresh : bool) (h : Host) : Host :=
  mkHost (fs h) (globalState h) enabled refresh
         (globalStoragePath h) (tmpdir h) (shown h).

Definition with_memoryCache (c : gmap string CacheEntry) (m : Manager) : Manager :=
  mkManager c (cacheDir m) (fileCacheDisabled m) (backgroundRefreshes m)
            (refreshDebounceTimers m) (lastRefreshTimes m) (gitRepoCache m)
            (gitCacheTimestamp m).
Definition with_cacheDir (d : option string) (m : Manager) : Manager :=
  mkManager (memoryCache m) d (fileCacheDisabled m) (backgroundRefreshes m)
            (refreshDebounceTimers m) (lastRefreshTimes m) (gitRepoCache m)
            (gitCacheTimestamp m).
Definition with_fileCacheDisabled (b : bool) (m : Manager) : Manager :=
  mkManager (memoryCache m) (cacheDir m) b (backgroundRefreshes m)
            (refreshDebounceTimers m) (lastRefreshTimes m) (gitRepoCache m)
            (gitCacheTimestamp m).
Definition with_backgroundRefreshes (r : gmap string nat) (m : Manager) : Manager :=
  mkManager (memoryCache m) (cacheDir m) (fileCacheDisabled m) r
            (refreshDebounceTimers m) (lastRefreshTimes m) (gitRepoCache m)
            (gitCacheTimestamp m).
Definition with_refreshDebounceTimers (t : gmap string nat) (m : Manager) : Manager :=
  mkManager (memoryCache m) (cacheDir m) (fileCacheDisabled m)
            (backgroundRefreshes m) t (lastRefreshTimes m) (gitRepoCache m)
            (gitCacheTimestamp m).
Definition with_lastRefreshTimes (t : gmap string Z) (m : Manager) : Manager :=
  mkManager (memoryCache m) (cacheDir m) (fileCacheDisabled m)
            (backgroundRefreshes m) (refreshDebounceTimers m) t (gitRepoCache m)
            (gitCacheTimestamp m).
Definition with_gitRepoCache (g : gmap string bool) (m : Manager) : Manager :=
  mkManager (memoryCache m) (cacheDir m) (fileCacheDisabled m)
            (backgroundRefreshes m) (refreshDebounceTimers m)
            (lastRefreshTimes m) g (gitCacheTimestamp m).
Definition with_gitCacheTimestamp (t : Z) (m : Manager) : Manager :=
  mkManager (memoryCache m) (cacheDir m) (fileCacheDisabled m)
            (backgroundRefreshes m) (refreshDebounceTimers m)
            (lastRefreshTimes m) (gitRepoCache m) t.

Definition upd_mgr (f : Manager → Manager) (s : State) : State :=
  mkState (f (mgr s)) (host s) (loop s).
Definition upd_host (f : Host → Host) (s : State) : State :=
  mkState (mgr s) (f (host s)) (loop s).
Definition upd_loop (f : Loop → Loop) (s : State) : State :=
  mkState (mgr s) (host s) (f (loop s)).

(** ** A state and exception monad

    A method runs on the state and either returns or throws; what it did to
    the state before throwing stays done. *)

Inductive Outcome (A : Type) :=
  | Return (a : A)
  | Throw.
Arguments Return {A} a.
Arguments Throw {A}.

Definition M (A : Type) : Type := State → Outcome A * State.

Definition ret {A} (a : A) : M A := λ s, (Return a, s).
Definition throw {A} : M A := λ s, (Throw, s).
Definition bind {A B} (m : M A) (k : A → M B) : M B :=
  λ s, match m s with
       | (Return a, s') => k a s'
       | (Throw, s') => (Throw, s')
       end.
(** [try { m } catch { h }] *)
Definition try_catch {A} (m : M A) (h : M A) : M A :=
  λ s, match m s with
       | (Return a, s') => (Return a, s')
       | (Throw, s') => h s'
       end.
(** [try { m } finally { f }] *)
Definition try_finally {A} (m : M A) (f : M unit) : M A :=
  λ s, match m s with
       | (Return a, s') =>
           match f s' with
           | (Return _, s'') => (Return a, s'')
           | (Throw, s'') => (Throw, s'')
           end
       | (Throw, s') => (Throw, snd (f s'))
       end.

Declare Scope cache_scope.
Delimit Scope cache_scope with cache.
Notation "x <- m ;; k" := (bind m (λ x, k))
  (at level 100, m at next level, right associativity) : cache_scope.
Notation "m1 ;; m2" := (bind m1 (λ _, m2))
  (at level 100, right associativity) : cache_scope.
Local Open Scope cache_scope.

Definition get_mgr : M Manager := λ s, (Return (mgr s), s).
Definition get_host : M Host := λ s, (Return (host s), s).
Definition get_loop : M Loop := λ s, (Return (loop s), s).
Definition modify_mgr (f : Manager → Manager) : M unit :=
  λ s, (Return tt, upd_mgr f s).
Definition modify_host (f : Host → Host) : M unit :=
  λ s, (Return tt, upd_host f s).
Definition modify_loop (f : Loop → Loop) : M unit :=
  λ s, (Return tt, upd_loop f s).

(** [if (c) { m }] *)
Definition when (c : bool) (m : M unit) : M unit := if c then m else ret tt.

(** [l.forEach(f)] and [for (const x of l)]: an exception leaves the loop. *)
Fixpoint forEach {A} (l : list A) (f : A → M unit) : M unit :=
  match l with
  | [] => ret tt
  | x :: l' => f x ;; forEach l' f
  end.

(** [m] takes every state to one related to it by [R], whether it
    returns or throws. *)
Definition respects (R : relation State) {A} (m : M A) : Prop :=
  ∀ s, R s (m s).2.

(** ** File-system calls

    Each call is counted.  [fs.existsSync] never throws (Node answers
    [false] on an error). *)

Definition fs_call : M FileSystem :=
  modify_host (λ h, with_fs (mkFs (fs_dirs (fs h)) (fs_mode (fs h))
                                  (S (fs_calls (fs h)))) h) ;;
  h <- get_host ;; ret (fs h).

Definition set_dirs (d : gmap string (gmap string FileContent)) : M unit :=
  modify_host (λ h, with_fs (mkFs d (fs_mode (fs h)) (fs_calls (fs h))) h).

Definition fs_existsSync (d : string) : M bool :=
  f <- fs_call ;;
  match fs_mode f with
  | Unavailable => ret false
  | _ => ret (dir_exists f d)
  end.

(** [fs.mkdirSync(d, { recursive: true })]: no error if [d] is there. *)
Definition fs_mkdirSync (d : string) : M unit :=
  f <- fs_call ;;
  match fs_mode f with
  | Healthy => if dir_exists f d then ret tt
               else set_dirs (<[d := ∅]> (fs_dirs f))
  | _ => throw
  end.

(** The sub-directories of [d].  A directory is found under its full path,
    so they are the names [n], not empty and without a separator, for which
    [path_join d n] is a directory. *)
Fixpoint strip_prefix (p s : string) : option string :=
  match p, s with
  | EmptyString, _ => Some s
  | String a p', String b s' =>
      if Ascii.eqb a b then strip_prefix p' s' else None
  | String _ _, EmptyString => None
  end.

Fixpoint has_separator (s : string) : bool :=
  match s with
  | EmptyString => false
  | String c s' => Ascii.eqb c "/" || has_separator s'
  end.

Definition child_name (d k : string) : option string :=
  match strip_prefix (d +:+ "/") k with
  | Some (String c n) =>
      if has_separator (String c n) then None else Some (String c n)
  | _ => None
  end.

Definition subdirs (dirs : gmap string (gmap string FileContent))
    (d : string) : list string :=
  omap (child_name d) (map_to_list dirs).*1.

(** [fs.readdirSync(d)] lists the files and the sub-directories of [d]
    alike.  Node leaves the order of a listing to the operating system;
    here the files come first. *)
Definition fs_readdirSync (d : string) : M (list string) :=
  f <- fs_call ;;
  match fs_mode f, fs_dirs f !! d with
  | Unavailable, _ => throw
  | _, Some files => ret ((map_to_list files).*1 ++ subdirs (fs_dirs f) d)
  | _, None => throw
  end.

Definition fs_statSync (d n : string) : M unit :=
  f <- fs_call ;;
  match fs_mode f, file_lookup f d n with
  | Unavailable, _ => throw
  | _, Some _ => ret tt
  | _, None => throw
  end.

Definition fs_readFileSync (d n : string) : M FileContent :=
  f <- fs_call ;;
  match fs_mode f, file_lookup f d n with
  | Unavailable, _ => throw
  | _, Some c => ret c
  | _, None => throw
  end.

Definition fs_writeFileSync (d n : string) (c : FileContent) : M unit :=
  f <- fs_call ;;
  match fs_mode f, fs_dirs f !! d with
  | Healthy, Some files => set_dirs (<[d := <[n := c]> files]> (fs_dirs f))
  | _, _ => throw
  end.

Definition fs_unlinkSync (d n : string) : M unit :=
  f <- fs_call ;;
  match fs_mode f, fs_dirs f !! d with
  | Healthy, Some files =>
      match files !! n with
      | Some _ => set_dirs (<[d := delete n files]> (fs_dirs f))
      | None => throw
      end
  | _, _ => throw
  end.

(** Modelled from the spec: [FileUtils] ([utils.ts]) is not among the
    sources.  Its functions are taken to be the calls of [fs] of the same
    name; following section 7 (d) of the specification, an existence check
    can fail with a file-system error. *)
Module FileUtils.

Definition existsSync (d : string) : M bool :=
  f <- fs_call ;;
  match fs_mode f with
  | Unavailable => throw
  | _ => ret (dir_exists f d)
  end.

(** [FileUtils.existsSync(path.join(d, n))] *)
Definition existsSync_join (d n : string) : M bool :=
  f <- fs_call ;;
  match fs_mode f with
  | Unavailable => throw
  | _ => ret (entry_exists f d n)
  end.

Definition mkdirSync : string → M unit := fs_mkdirSync.
Definition readdirSync : string → M (list string) := fs_readdirSync.
Definition readFileSync : string → string → M FileContent := fs_readFileSync.

End FileUtils.

(** [JSON.parse fileContent as CacheEntry]; [None] is [null]. *)
Definition JSON_parse (c : FileContent) : M (option CacheEntry) :=
  match c with
  | EmptyFile | Unparsable => throw
  | JsonNull => ret None
  | JsonEntry e => ret (Some e)
  end.

Definition JSON_stringify (e : CacheEntry) : FileContent := JsonEntry e.

(** [!fileContent] *)
Definition falsy_content (c : FileContent) : bool :=
  match c with EmptyFile => true | _ => false end.

(** [s.startsWith(t)] and [s.endsWith(t)] *)
Definition startsWith (s t : string) : bool := String.prefix t s.
Definition endsWith (s t : string) : bool :=
  String.prefix (String.rev t) (String.rev s).

(** No sub-directory of [d] is named [*.json]. *)
Definition no_json_subdir (f : FileSystem) (d : string) : bool :=
  forallb (λ n, negb (endsWith n ".json")) (subdirs (fs_dirs f) d).

(** Truthiness of [string | null]. *)
Definition truthy (o : option string) : option string :=
  match o with
  | Some EmptyString | None => None
  | Some d => Some d
  end.

(** [HashUtils.generateHash] ([utils.ts]) is not among the sources; the
    model is parametric in it. *)
Class HashUtils := generateHash : string → string.

(** ** The methods of [CacheManager] *)

Section Methods.
Context `{HashUtils}.

Definition memory_set (k : string) (e : CacheEntry) : M unit :=
  modify_mgr (λ m, with_memoryCache (<[k := e]> (memoryCache m)) m).

(** [globalState.update(key, value)]; [None] is [undefined], which removes
    the key. *)
Definition globalState_update (k : string) (v : option CacheEntry) : M unit :=
  modify_host (λ h, with_globalState
                      (match v with
                       | Some e => <[k := e]> (globalState h)
                       | None => delete k (globalState h)
                       end) h).

Definition getCacheDir : M string :=
  m <- get_mgr ;;
  match truthy (cacheDir m) with
  | Some d => ret d
  | None =>
      try_catch
        (h <- get_host ;;
         let globalStoragePath := globalStoragePath h in
         e <- FileUtils.existsSync globalStoragePath ;;
         when (negb e) (FileUtils.mkdirSync globalStoragePath) ;;
         let cacheDir := path_join globalStoragePath "cache" in
         e <- FileUtils.existsSync cacheDir ;;
         when (negb e) (FileUtils.mkdirSync cacheDir) ;;
         modify_mgr (with_cacheDir (Some cacheDir)) ;;
         ret cacheDir)
        (h <- get_host ;;
         let fallbackDir := path_join (tmpdir h) "rip-scope-cache" in
         e <- FileUtils.existsSync fallbackDir ;;
         when (negb e) (FileUtils.mkdirSync fallbackDir) ;;
         modify_mgr (with_cacheDir (Some fallbackDir)) ;;
         ret fallbackDir)
  end.

(** The path comes back as (directory, file name). *)
Definition getCacheFilePath (cacheKey : string) (cacheDir : option string)
  : M (string * string) :=
  let hashString := generateHash cacheKey in
  basePath <- match truthy cacheDir with
              | Some d => ret d
              | None => getCacheDir
              end ;;
  ret (basePath, "cache_" +:+ hashString +:+ ".json").

(** The callback of [files.forEach] in [cleanupOldCacheFiles]. *)
Definition cleanup_callback (now : Z) (cacheDir file : string) : M unit :=
  when (endsWith file ".json")
    (try_catch
       (fs_statSync cacheDir file ;;
        fileContent <- FileUtils.readFileSync cacheDir file ;;
        if falsy_content fileContent then ret tt
        else
          parsed <- JSON_parse fileContent ;;
          match parsed with
          | None => throw   (* TypeError: [entry.timestamp] of null *)
          | Some entry =>
              when ((now - timestamp entry >? maxAge)
                    || negb (version_is_1 entry))
                   (fs_unlinkSync cacheDir file)
          end)
       (fs_unlinkSync cacheDir file)).

Definition cleanupOldCacheFiles (now : Z) : M unit :=
  try_catch
    (cacheDir <- getCacheDir ;;
     e <- FileUtils.existsSync cacheDir ;;
     if negb e then ret tt
     else
       files <- FileUtils.readdirSync cacheDir ;;
       forEach files (cleanup_callback now cacheDir))
    (ret tt).

(** The keys of [globalState] and the names in a directory come in the
    enumeration order of the map. *)
Definition doPreloadCache : M unit :=
  h <- get_host ;;
  if negb (cacheEnabled h) then ret tt
  else
    try_catch
      (let globalStateKeys := (map_to_list (globalState h)).*1 in
       forEach globalStateKeys (λ key,
         when (startsWith key "rip-scope-cache-")
           (h <- get_host ;;
            match globalState h !! key with
            | Some entry =>
                when (version_is_1 entry)
                     (memory_set (searchParams entry) entry)
            | None => ret tt
            end)) ;;
       cacheDir <- getCacheDir ;;
       e <- FileUtils.existsSync cacheDir ;;
       when e
         (files <- fs_readdirSync cacheDir ;;
          forEach files (λ file,
            when (endsWith file ".json")
              (try_catch
                 (fileContent <- FileUtils.readFileSync cacheDir file ;;
                  if falsy_content fileContent then ret tt
                  else
                    parsed <- JSON_parse fileContent ;;
                    match parsed with
                    | Some entry =>
                        when (version_is_1 entry)
                             (memory_set (searchParams entry) entry)
                    | None => ret tt
                    end)
                 (ret tt)))))
      (ret tt).

(** The two loop bodies of [doPreloadCache], by name. *)
Definition preload_key (key : string) : M unit :=
  when (startsWith key "rip-scope-cache-")
    (h <- get_host ;;
     match globalState h !! key with
     | Some entry =>
         when (version_is_1 entry) (memory_set (searchParams entry) entry)
     | None => ret tt
     end).

Definition preload_file (cacheDir file : string) : M unit :=
  when (endsWith file ".json")
    (try_catch
       (fileContent <- FileUtils.readFileSync cacheDir file ;;
        if falsy_content fileContent then ret tt
        else
          parsed <- JSON_parse fileContent ;;
          match parsed with
          | Some entry =>
              when (version_is_1 entry)
                   (memory_set (searchParams entry) entry)
          | None => ret tt
          end)
       (ret tt)).

(** [None] is [null].  The [return null] on an empty file and the one after
    the [try] give the same answer, so the block yields the entry found. *)
Definition getCachedDirectories (p : SearchParams)
  : M (option (list DirectoryItem)) :=
  h <- get_host ;;
  if negb (cacheEnabled h) then ret None
  else
    let cacheKey := getCacheKey p in
    m <- get_mgr ;;
    entry <-
      match memoryCache m !! cacheKey with
      | Some entry => ret (Some entry)
      | None =>
          try_catch
            (cacheFilePath <- getCacheFilePath cacheKey None ;;
             e <- FileUtils.existsSync_join cacheFilePath.1 cacheFilePath.2 ;;
             if e then
               fileContent <- FileUtils.readFileSync cacheFilePath.1
                                                     cacheFilePath.2 ;;
               if falsy_content fileContent then ret None
               else
                 parsed <- JSON_parse fileContent ;;
                 match parsed with
                 | Some diskEntry =>
                     if version_is_1 diskEntry then
                       memory_set cacheKey diskEntry ;;
                       ret (Some diskEntry)
                     else ret None
                 | None => ret None
                 end
             else ret None)
            (ret None)
      end ;;
    match entry with
    | None => ret None
    | Some entry => ret (Some (directories entry))
    end.

Definition shouldRefreshInBackground (p : SearchParams) (now : Z) : M bool :=
  let cacheKey := getCacheKey p in
  m <- get_mgr ;;
  if bool_decide (is_Some (backgroundRefreshes m !! cacheKey)) then ret false
  else
    let lastRefreshTime := default 0 (lastRefreshTimes m !! cacheKey) in
    let timeSinceLastRefresh := now - lastRefreshTime in
    if timeSinceLastRefresh <? REFRESH_BUFFER_MS then ret false
    else ret true.

(** [setTimeout] and [clearTimeout] for the debounce timer, whose callback
    is [fire_timer] below. *)
Definition setTimeout (p : SearchParams) : M nat :=
  l <- get_loop ;;
  let t := nextHandle l in
  modify_loop (λ l, mkLoop (<[t := p]> (timers l)) (suspended l)
                           (S (nextHandle l))) ;;
  ret t.

Definition clearTimeout (t : nat) : M unit :=
  modify_loop (λ l, mkLoop (delete t (timers l)) (suspended l) (nextHandle l)).

Definition triggerBackgroundRefresh (p : SearchParams) : M unit :=
  let cacheKey := getCacheKey p in
  m <- get_mgr ;;
  match refreshDebounceTimers m !! cacheKey with
  | Some t => clearTimeout t
  | None => ret tt
  end ;;
  timer <- setTimeout p ;;
  modify_mgr (λ m, with_refreshDebounceTimers
                     (<[cacheKey := timer]> (refreshDebounceTimers m)) m).

Definition setCachedDirectories (p : SearchParams)
    (directories : list DirectoryItem) (now : Z) : M unit :=
  h <- get_host ;;
  if negb (cacheEnabled h) then ret tt
  else
    let cacheKey := getCacheKey p in
    let entry := mkEntry directories now cacheKey (Some 1) in
    memory_set cacheKey entry ;;
    let useGlobalState :=
      bool_decide (length directories ≤ MAX_GLOBALSTATE_ENTRIES)%nat in
    when useGlobalState
      (let hashString := generateHash cacheKey in
       let diskCacheKey := "rip-scope-cache-" +:+ hashString in
       globalState_update diskCacheKey (Some entry)) ;;
    m <- get_mgr ;;
    when (negb (fileCacheDisabled m))
      (cacheDir <- getCacheDir ;;
       try_catch
         (e <- FileUtils.existsSync cacheDir ;;
          when (negb e) (fs_mkdirSync cacheDir) ;;
          e <- FileUtils.existsSync cacheDir ;;
          (if negb e then throw else ret tt) ;;
          cacheFilePath <- getCacheFilePath cacheKey (Some cacheDir) ;;
          let parentDir := cacheFilePath.1 in
          e <- FileUtils.existsSync parentDir ;;
          when (negb e) (fs_mkdirSync parentDir) ;;
          fs_writeFileSync cacheFilePath.1 cacheFilePath.2
                           (JSON_stringify entry))
         ((* the two values logged by [console.error] *)
          FileUtils.existsSync cacheDir ;;
          getCacheFilePath cacheKey (Some cacheDir) ;;
          modify_mgr (with_fileCacheDisabled true))).

(** What the collaborators of a background refresh answer: [false] or
    [None] is a rejected promise.  A search cancelled by the 30 s timeout
    rejects (section 6 of the specification). *)
Record Collaborators := mkCollaborators {
  import_ok : bool;                          (* the two dynamic imports *)
  validSearchPaths : option (list string);   (* getValidSearchPaths() *)
  ripgrep_ok : bool;                         (* checkRipgrepAvailability() *)
  fzf_ok : bool;                             (* checkFzfAvailability(fzfPath) *)
  findDirectoriesWithFzf : option (list DirectoryItem);
  findDirectories : option (list DirectoryItem)
}.

(** [await] of a promise that resolves with [a] or rejects. *)
Definition await {A} (o : option A) : M A :=
  match o with Some a => ret a | None => throw end.
Definition await_ok (b : bool) : M unit := if b then ret tt else throw.

Definition doBackgroundRefresh (c : Collaborators) (p : SearchParams)
    (now : Z) : M unit :=
  try_catch
    (await_ok (import_ok c) ;;
     actualSearchPaths <- await (validSearchPaths c) ;;
     let correctedSearchParams :=
       mkSearchParams actualSearchPaths (excludePatterns p)
                      (additionalRipgrepArgs p) (fzfPath p) in
     await_ok (ripgrep_ok c) ;;
     useFzf <- try_catch (await_ok (fzf_ok c) ;; ret true) (ret false) ;;
     try_finally
       (directories <- (if useFzf : bool
                        then await (findDirectoriesWithFzf c)
                        else await (findDirectories c)) ;;
        setCachedDirectories correctedSearchParams directories now)
       (ret tt))
    (ret tt).

(** [performBackgroundRefresh] up to [await refreshPromise]: the promise of
    [doBackgroundRefresh] gets a fresh handle, and the invocation is
    suspended on it. *)
Definition performBackgroundRefresh_begin (p : SearchParams) (now : Z)
  : M unit :=
  let cacheKey := getCacheKey p in
  m <- get_mgr ;;
  if bool_decide (is_Some (backgroundRefreshes m !! cacheKey)) then ret tt
  else
    modify_mgr (λ m, with_lastRefreshTimes
                       (<[cacheKey := now]> (lastRefreshTimes m)) m) ;;
    l <- get_loop ;;
    let refreshPromise := nextHandle l in
    modify_loop (λ l, mkLoop (timers l) (<[refreshPromise := p]> (suspended l))
                             (S (nextHandle l))) ;;
    modify_mgr (λ m, with_backgroundRefreshes
                       (<[cacheKey := refreshPromise]> (backgroundRefreshes m))
                       m).

(** The rest of [performBackgroundRefresh], once the promise has settled:
    the [finally] block. *)
Definition performBackgroundRefresh_resume (p : SearchParams) : M unit :=
  let cacheKey := getCacheKey p in
  modify_mgr (λ m, with_backgroundRefreshes
                     (delete cacheKey (backgroundRefreshes m)) m).

(** The callback of the debounce timer [t]. *)
Definition fire_timer (t : nat) (p : SearchParams) (now : Z) : M unit :=
  clearTimeout t ;;
  let cacheKey := getCacheKey p in
  modify_mgr (λ m, with_refreshDebounceTimers
                     (delete cacheKey (refreshDebounceTimers m)) m) ;;
  performBackgroundRefresh_begin p now.

(** The refresh with promise handle [r] runs to its end and the suspended
    [performBackgroundRefresh] resumes. *)
Definition settle_refresh (r : nat) (c : Collaborators) (p : SearchParams)
    (now : Z) : M unit :=
  modify_loop (λ l, mkLoop (timers l) (delete r (suspended l)) (nextHandle l)) ;;
  try_finally
    (try_catch (doBackgroundRefresh c p now) (ret tt))
    (performBackgroundRefresh_resume p).

Definition getCachedDirectoriesWithRefresh (p : SearchParams)
    (triggerRefresh : bool) (now : Z) : M (option (list DirectoryItem)) :=
  cachedDirectories <- getCachedDirectories p ;;
  h <- get_host ;;
  when (bool_decide (is_Some cachedDirectories) && triggerRefresh
        && backgroundRefreshEnabled h)
    (should <- shouldRefreshInBackground p now ;;
     when should (triggerBackgroundRefresh p)) ;;
  ret cachedDirectories.

Definition showInfo (msg : string) : M unit :=
  modify_host (λ h, with_shown (msg :: shown h) h).

(** The body of the [try] in [clearCache]. *)
Definition clearCache_files : M unit :=
  cacheDir <- getCacheDir ;;
  e <- fs_existsSync cacheDir ;;
  when e
    (files <- fs_readdirSync cacheDir ;;
     forEach files (λ file,
       when (endsWith file ".json") (fs_unlinkSync cacheDir file))).

(** The timer that closes the message after 2.5 s is left out. *)
Definition clearCache : M unit :=
  m <- get_mgr ;;
  let memoryCacheSize := size (memoryCache m) in
  modify_mgr (with_memoryCache ∅) ;;
  h <- get_host ;;
  forEach (map_to_list (globalState h)).*1 (λ key,
    when (startsWith key "rip-scope-cache-") (globalState_update key None)) ;;
  try_catch clearCache_files (ret tt) ;;
  showInfo ("Cache cleared. Removed " +:+ pretty memoryCacheSize
            +:+ " entries.").

(** [getCacheStatus]: the three counts. *)
Record CacheStatus := mkStatus {
  memoryEntries : nat;
  diskEntries : nat;
  fileEntries : nat
}.

Definition getCacheStatus : M CacheStatus :=
  m <- get_mgr ;;
  let memoryEntries := size (memoryCache m) in
  h <- get_host ;;
  let diskEntries :=
    length (filter (λ key, startsWith key "rip-scope-cache-" = true)
                   (map_to_list (globalState h)).*1) in
  fileEntries <-
    try_catch
      (cacheDir <- getCacheDir ;;
       e <- fs_existsSync cacheDir ;;
       if e then
         files <- fs_readdirSync cacheDir ;;
         ret (length (filter (λ file, endsWith file ".json" = true) files))
       else ret 0%nat)
      (ret 0%nat) ;;
  ret (mkStatus memoryEntries diskEntries fileEntries).

Definition dispose : M unit :=
  m <- get_mgr ;;
  forEach (map_to_list (refreshDebounceTimers m)).*2 clearTimeout ;;
  modify_mgr (with_refreshDebounceTimers ∅).

Definition isGitRepository (dirPath : string) (now : Z) : M bool :=
  m <- get_mgr ;;
  when (now - gitCacheTimestamp m >? GIT_CACHE_DURATION)
    (modify_mgr (with_gitRepoCache ∅) ;;
     modify_mgr (with_gitCacheTimestamp now)) ;;
  m <- get_mgr ;;
  match gitRepoCache m !! dirPath with
  | Some cached => ret cached
  | None =>
      try_catch
        (isGitRepo <- FileUtils.existsSync_join dirPath ".git" ;;
         modify_mgr (λ m, with_gitRepoCache
                            (<[dirPath := isGitRepo]> (gitRepoCache m)) m) ;;
         ret isGitRepo)
        (modify_mgr (λ m, with_gitRepoCache
                            (<[dirPath := false]> (gitRepoCache m)) m) ;;
         ret false)
  end.

Definition clearGitCache : M unit :=
  modify_mgr (with_gitRepoCache ∅) ;;
  modify_mgr (with_gitCacheTimestamp 0).

(** [new CacheManager(extensionContext)] *)
Definition new_manager : Manager :=
  mkManager ∅ None false ∅ ∅ ∅ ∅ 0.

Definition constructor (h : Host) : State :=
  (try_catch (getCacheDir ;; ret tt) (ret tt)
             (mkState new_manager h (mkLoop ∅ ∅ 0))).2.

(** ** The event loop

    One step is a call of a public method, the callback of an armed
    debounce timer, the completion of a pending refresh, or a change made
    from outside: the file system (its directories and its fault mode) and
    the two configuration flags can change between any two steps. *)

Definition outside (dirs : gmap string (gmap string FileContent))
    (mode : FsMode) (enabled refresh : bool) (s : State) : State :=
  upd_host (λ h, with_config enabled refresh
                   (with_fs (mkFs dirs mode (fs_calls (fs h))) h)) s.

Inductive step : State → State → Prop :=
  | step_lookup p trigger now s :
      step s (getCachedDirectoriesWithRefresh p trigger now s).2
  | step_store p dirs now s :
      step s (setCachedDirectories p dirs now s).2
  | step_preload s :
      step s (doPreloadCache s).2
  | step_cleanup now s :
      step s (cleanupOldCacheFiles now s).2
  | step_clear s :
      step s (clearCache s).2
  | step_git d now s :
      step s (isGitRepository d now s).2
  | step_clearGit s :
      step s (clearGitCache s).2
  | step_dispose s :
      step s (dispose s).2
  | step_timer t p now s :
      timers (loop s) !! t = Some p →
      step s (fire_timer t p now s).2
  | step_settle r c p now s :
      suspended (loop s) !! r = Some p →
      step s (settle_refresh r c p now s).2
  | step_outside dirs mode enabled refresh s :
      step s (outside dirs mode enabled refresh s).

Inductive reachable : State → Prop :=
  | reachable_constructor h : reachable (constructor h)
  | reachable_step s s' : reachable s → step s s' → reachable s'.

(** ** Specification predicates *)

(** The background refreshes in flight for a key: the suspended
    invocations of [performBackgroundRefresh] whose parameters have it. *)
Definition in_flight (s : State) (k : string) : list (nat * SearchParams) :=
  filter (λ rp, getCacheKey rp.2 = k) (map_to_list (suspended (loop s))).

(** The marker of a key is the handle of its refresh in flight, and the
    other way round; handles in use are below the next fresh one. *)
Record refresh_inv (s : State) : Prop := {
  inv_marker r p :
    suspended (loop s) !! r = Some p →
    backgroundRefreshes (mgr s) !! getCacheKey p = Some r;
  inv_suspended k r :
    backgroundRefreshes (mgr s) !! k = Some r →
    ∃ p, suspended (loop s) !! r = Some p ∧ getCacheKey p = k;
  inv_fresh r p :
    suspended (loop s) !! r = Some p → (r < nextHandle (loop s))%nat
}.

(** Every entry of the memory tier carries version 1. *)
Definition memory_inv (s : State) : Prop :=
  map_Forall (λ _ e, version e = Some 1) (memoryCache (mgr s)).

(** The debounce timers: the timer recorded for a key is armed with
    parameters of that key, and every armed timer is the one recorded for
    its key. *)
Record timer_inv (s : State) : Prop := {
  inv_armed t p :
    timers (loop s) !! t = Some p →
    refreshDebounceTimers (mgr s) !! getCacheKey p = Some t;
  inv_recorded k t :
    refreshDebounceTimers (mgr s) !! k = Some t →
    ∃ p, timers (loop s) !! t = Some p ∧ getCacheKey p = k;
  inv_timer_fresh t p :
    timers (loop s) !! t = Some p → (t < nextHandle (loop s))%nat
}.

(** The armed timers of a key. *)
Definition armed (s : State) (k : string) : list (nat * SearchParams) :=
  filter (λ tp, getCacheKey tp.2 = k) (map_to_list (timers (loop s))).

(** What the cleanup pass at [now] deletes: a file named [*.json] whose
    text does not parse, is [null], or is an entry older than [maxAge] or
    of a version other than 1. *)
Definition purged (now : Z) (file : string) (c : FileContent) : bool :=
  endsWith file ".json"
  && match c with
     | EmptyFile => false
     | Unparsable | JsonNull => true
     | JsonEntry e => (now - timestamp e >? maxAge) || negb (version_is_1 e)
     end.

(** The three tiers. *)
Definition tiers (s : State) :=
  (memoryCache (mgr s), globalState (host s), fs_dirs (fs (host s))).

(** The background refresh fails: an import, the search paths, ripgrep
    or the search (an error, or the cancellation at the timeout) rejects. *)
Definition refresh_fails (c : Collaborators) : Prop :=
  import_ok c = false ∨ validSearchPaths c = None ∨ ripgrep_ok c = false
  ∨ (if fzf_ok c then findDirectoriesWithFzf c else findDirectories c) = None.

End Methods.

(** ** Relations between the state before and after a call

    They say what a call leaves alone; the proofs show that the methods
    respect them. *)

(** The refresh bookkeeping is untouched; handles are only ever taken. *)
Definition keeps_refreshes (s s' : State) : Prop :=
  backgroundRefreshes (mgr s') = backgroundRefreshes (mgr s)
  ∧ suspended (loop s') = suspended (loop s)
  ∧ (nextHandle (loop s) ≤ nextHandle (loop s'))%nat.

(** The memory tier stays at version 1 if it was. *)
Definition keeps_memory_inv (s s' : State) : Prop :=
  memory_inv s → memory_inv s'.

(** The memory tier and the cache switch are untouched. *)
Definition keeps_memory (s s' : State) : Prop :=
  memoryCache (mgr s') = memoryCache (mgr s)
  ∧ cacheEnabled (host s') = cacheEnabled (host s).

(** The structured tier is untouched. *)
Definition keeps_globalState (s s' : State) : Prop :=
  globalState (host s') = globalState (host s).

(** The debounce timers are untouched; handles are only ever taken. *)
Definition keeps_timers (s s' : State) : Prop :=
  refreshDebounceTimers (mgr s') = refreshDebounceTimers (mgr s)
  ∧ timers (loop s') = timers (loop s)
  ∧ (nextHandle (loop s) ≤ nextHandle (loop s'))%nat.

(** File writes, once disabled, stay disabled. *)
Definition breaker_sticks (s s' : State) : Prop :=
  fileCacheDisabled (mgr s) = true → fileCacheDisabled (mgr s') = true.

(** An observation of the state is untouched. *)
Definition same_on {A} (f : State → A) (s s' : State) : Prop := f s' = f s.

(** The two states hold the same files. *)
Definition same_files (s s' : State) : Prop :=
  ∀ d n, file_lookup (fs (host s')) d n = file_lookup (fs (host s)) d n.

(** No key leaves the memory tier. *)
Definition keeps_present (s s' : State) : Prop :=
  ∀ k, is_Some (memoryCache (mgr s) !! k)
       → is_Some (memoryCache (mgr s') !! k).

(** Where the preload takes an entry from: a key of [globalState] with the
    cache prefix, or a file named [*.json]. *)
Definition preload_source (s : State) (e : CacheEntry) : Prop :=
  (∃ key, startsWith key "rip-scope-cache-" = true
          ∧ globalState (host s) !! key = Some e)
  ∨ (∃ d n, endsWith n ".json" = true
            ∧ file_lookup (fs (host s)) d n = Some (JsonEntry e)).

(** The state [s] has the structured tier and the files of [s0], and in
    memory what [s0] had or entries of version 1 taken from those two and
    filed under their own [searchParams]. *)
Definition preloaded_from (s0 s : State) : Prop :=
  globalState (host s) = globalState (host s0)
  ∧ same_files s0 s
  ∧ ∀ k e, memoryCache (mgr s) !! k = Some e →
           memoryCache (mgr s0) !! k = Some e
           ∨ (version e = Some 1 ∧ searchParams e = k ∧ preload_source s0 e).

Definition keeps_preloaded (s0 s s' : State) : Prop :=
  preloaded_from s0 s → preloaded_from s0 s'.

(* ===================================================================== *)
(** * Part II: example data                                               *)
(* ===================================================================== *)

(** A stand-in for [HashUtils.generateHash]: the length of the key. *)
Definition ex_hash : HashUtils := λ s, pretty (String.length s).

Section Examples.
Local Existing Instance ex_hash.

Definition ex_p : SearchParams :=
  mkSearchParams ["/home/u"] ["node_modules"] [] "fzf".
Definition ex_q : SearchParams := mkSearchParams ["/srv"] [] [] "fzf".
Definition ex_item : DirectoryItem := mkItem "/home/u/a" "a" None Directory.
Definition ex_big : list DirectoryItem := replicate 1001 ex_item.

(** The cache file of a key. *)
Definition ex_file (p : SearchParams) : string :=
  "cache_" +:+ generateHash (getCacheKey p) +:+ ".json".

Definition ex_dirs : gmap string (gmap string FileContent) :=
  {[ "/gs" := ∅ ; "/gs/cache" := ∅ ]}.
Definition ex_host : Host :=
  mkHost (mkFs ex_dirs Healthy 0) ∅ true true "/gs" "/tmp" [].

(** A fresh manager, a store, a lookup that arms the debounce timer, and
    the timer firing: a refresh of [ex_p] is in flight. *)
Definition ex_s0 : State := constructor ex_host.
Definition ex_s1 : State := (setCachedDirectories ex_p [ex_item] 5 ex_s0).2.
Definition ex_s2 : State :=
  (getCachedDirectoriesWithRefresh ex_p true 1000000 ex_s1).2.
Definition ex_inflight : State := (fire_timer 0 ex_p 1000500 ex_s2).2.

(** The cache is switched off, before anything is stored and after. *)
Definition ex_disabled : State :=
  constructor (mkHost (mkFs ex_dirs Healthy 0) ∅ false true "/gs" "/tmp" []).
Definition ex_off : State := outside ex_dirs Healthy false true ex_s1.

(** A store on a read-only file system trips the breaker; the file system
    is healthy again afterwards. *)
Definition ex_readonly : State :=
  constructor (mkHost (mkFs ex_dirs ReadOnly 0) ∅ true true "/gs" "/tmp" []).
Definition ex_tripped : State :=
  outside ex_dirs Healthy true true
          (setCachedDirectories ex_p [ex_item] 5 ex_readonly).2.

(** A cache directory left by an earlier run: an entry of version 2 for
    [ex_p] and one of version 1 for [ex_q]. *)
Definition ex_v2 : CacheEntry := mkEntry [ex_item] 7 (getCacheKey ex_p) (Some 2).
Definition ex_v1 : CacheEntry := mkEntry [ex_item] 7 (getCacheKey ex_q) (Some 1).
Definition ex_old : State :=
  constructor
    (mkHost (mkFs {[ "/gs" := ∅;
                     "/gs/cache" := {[ ex_file ex_p := JsonEntry ex_v2;
                                       ex_file ex_q := JsonEntry ex_v1 ]} ]}
                  Healthy 0)
            ∅ true true "/gs" "/tmp" []).

(** A repository is checked while it exists, and is removed afterwards. *)
Definition ex_repo_dirs : gmap string (gmap string FileContent) :=
  {[ "/gs" := ∅; "/gs/cache" := ∅; "/repo" := ∅; "/repo/.git" := ∅ ]}.
Definition ex_git : State :=
  (isGitRepository "/repo" 1000000
                   (outside ex_repo_dirs Healthy true true ex_s0)).2.
Definition ex_stale : State := outside ex_dirs Healthy true true ex_git.

(** A search that rejects, as at the timeout. *)
Definition ex_failing : Collaborators :=
  mkCollaborators true (Some ["/home/u"]) true false None None.

(** A search that answers, for other paths than those asked for. *)
Definition ex_working : Collaborators :=
  mkCollaborators true (Some ["/home/u"; "/srv"]) true true
                  (Some [ex_item]) None.
Definition ex_corrected : SearchParams :=
  mkSearchParams ["/home/u"; "/srv"] ["node_modules"] [] "fzf".

(** A new manager on the host that the store of [ex_s1] left. *)
Definition ex_restarted : State := constructor (host ex_s1).
Definition ex_stored : CacheEntry :=
  mkEntry [ex_item] 5 (getCacheKey ex_p) (Some 1).

(** A cache directory with a file and a sub-directory, both named
    [*.json]. *)
Definition ex_nested : State :=
  constructor
    (mkHost (mkFs {[ "/gs" := ∅;
                     "/gs/cache" := {[ ex_file ex_p := JsonEntry ex_v2 ]};
                     "/gs/cache/a.json" := ∅ ]}
                  Healthy 0)
            ∅ true true "/gs" "/tmp" []).

(** A host whose storage directories do not exist yet. *)
Definition ex_bare : Host :=
  mkHost (mkFs ∅ Healthy 0) ∅ true true "/gs" "/tmp" [].

End Examples.

(* ===================================================================== *)
(** * Part III: theorems                                                  *)
(* ===================================================================== *)

Section JSONFacts.
Import JSON.

Lemma app_cons (c : ascii) (s t : string) :
  String c s +:+ t = String c (s +:+ t).
Proof. reflexivity. Qed.

Lemma app_empty_l (t : string) : EmptyString +:+ t = t.
Proof. reflexivity. Qed.

Lemma app_assoc (s t u : string) : (s +:+ t) +:+ u = s +:+ t +:+ u.
Proof. induction s as [|c s IH]; [done|]. by rewrite !app_cons, IH. Qed.

Lemma unquote_quote_char (c : ascii) (r : string) :
  unquote_char (quote_char c +:+ r) = Some (c, r).
Proof.
  destruct c as [[] [] [] [] [] [] [] []]; reflexivity.
Qed.

Lemma unquote_char_dquote (r : string) : unquote_char (String dquote r) = None.
Proof. reflexivity. Qed.

Lemma quote_body_inj (s1 s2 r1 r2 : string) :
  quote_body s1 +:+ String dquote r1 = quote_body s2 +:+ String dquote r2 →
  s1 = s2 ∧ r1 = r2.
Proof.
  revert s2; induction s1 as [|c1 s1 IH]; intros [|c2 s2] Heq; simpl in Heq.
  - rewrite !app_empty_l in Heq. by simplify_eq.
  - apply (f_equal unquote_char) in Heq.
    rewrite app_empty_l, app_assoc, unquote_quote_char in Heq. done.
  - apply (f_equal unquote_char) in Heq.
    rewrite app_empty_l, app_assoc, unquote_quote_char in Heq. done.
  - apply (f_equal unquote_char) in Heq.
    rewrite !app_assoc, !unquote_quote_char in Heq.
    injection Heq as -> Heq. destruct (IH _ Heq) as [-> ->]. done.
Qed.

Lemma quote_inj (s1 s2 r1 r2 : string) :
  quote s1 +:+ r1 = quote s2 +:+ r2 → s1 = s2 ∧ r1 = r2.
Proof.
  unfold quote. rewrite !app_cons, !app_assoc, !app_cons, !app_empty_l.
  intros Heq. injection Heq as Heq. by apply quote_body_inj.
Qed.

Lemma join_quoted_cons (x : string) (l : list string) (r : string) :
  join_quoted (x :: l) +:+ r
  = quote x +:+ match l with
                | [] => r
                | _ :: _ => String "," (join_quoted l +:+ r)
                end.
Proof.
  destruct l as [|y l]; [done|].
  change (join_quoted (x :: y :: l))
    with (quote x +:+ "," +:+ join_quoted (y :: l)).
  by rewrite !app_assoc.
Qed.

Lemma join_quoted_inj (l1 l2 : list string) (r1 r2 : string) :
  join_quoted l1 +:+ String "]" r1 = join_quoted l2 +:+ String "]" r2 →
  l1 = l2 ∧ r1 = r2.
Proof.
  revert l2; induction l1 as [|x1 l1 IH]; intros [|x2 l2] Heq.
  - simpl in Heq. rewrite !app_empty_l in Heq. by simplify_eq.
  - rewrite join_quoted_cons in Heq. done.
  - rewrite join_quoted_cons in Heq. done.
  - rewrite !join_quoted_cons in Heq.
    apply quote_inj in Heq as [-> Heq].
    destruct l1 as [|y1 l1], l2 as [|y2 l2]; try done.
    + by simplify_eq.
    + injection Heq as Heq. destruct (IH (y2 :: l2) Heq) as [-> ->]. done.
Qed.

Lemma stringify_array_inj (l1 l2 : list string) (r1 r2 : string) :
  stringify_array l1 +:+ r1 = stringify_array l2 +:+ r2 →
  l1 = l2 ∧ r1 = r2.
Proof.
  unfold stringify_array. rewrite !app_assoc, !app_cons, !app_empty_l.
  intros Heq. injection Heq as Heq. by apply join_quoted_inj.
Qed.

(** The key determines the three serialised fields. *)
Lemma getCacheKey_inj (p1 p2 : SearchParams) :
  getCacheKey p1 = getCacheKey p2 →
  searchPath p1 = searchPath p2
  ∧ excludePatterns p1 = excludePatterns p2
  ∧ additionalRipgrepArgs p1 = additionalRipgrepArgs p2.
Proof.
  unfold getCacheKey. intros Heq.
  apply (inj (String.app _)), (inj (String.app _)) in Heq.
  apply stringify_array_inj in Heq as [-> Heq].
  apply (inj (String.app _)), (inj (String.app _)) in Heq.
  apply stringify_array_inj in Heq as [-> Heq].
  apply (inj (String.app _)), (inj (String.app _)) in Heq.
  apply stringify_array_inj in Heq as [-> _]. done.
Qed.

End JSONFacts.

(** ** Reasoning about methods: relations every call respects *)

Section Respects.
Context (R : relation State) `{!PreOrder R}.

Lemma respects_ret {A} (a : A) : respects R (ret a).
Proof. intros s. simpl. reflexivity. Qed.

Lemma respects_throw {A} : respects R (@throw A).
Proof. intros s. simpl. reflexivity. Qed.

Lemma respects_get_mgr : respects R get_mgr.
Proof. intros s. simpl. reflexivity. Qed.

Lemma respects_get_host : respects R get_host.
Proof. intros s. simpl. reflexivity. Qed.

Lemma respects_get_loop : respects R get_loop.
Proof. intros s. simpl. reflexivity. Qed.

Lemma respects_bind {A B} (m : M A) (k : A → M B) :
  respects R m → (∀ a, respects R (k a)) → respects R (bind m k).
Proof.
  intros Hm Hk s. unfold bind. specialize (Hm s).
  destruct (m s) as [[a|] s1]; simpl in *; [|done].
  etrans; [exact Hm|apply Hk].
Qed.

Lemma respects_try_catch {A} (m h : M A) :
  respects R m → respects R h → respects R (try_catch m h).
Proof.
  intros Hm Hh s. unfold try_catch. specialize (Hm s).
  destruct (m s) as [[a|] s1]; simpl in *; [done|].
  etrans; [exact Hm|apply Hh].
Qed.

Lemma respects_try_finally {A} (m : M A) (f : M unit) :
  respects R m → respects R f → respects R (try_finally m f).
Proof.
  intros Hm Hf s. unfold try_finally. specialize (Hm s).
  destruct (m s) as [[a|] s1]; simpl in *.
  - specialize (Hf s1). destruct (f s1) as [[[]|] s2]; simpl in *;
      by etrans.
  - etrans; [exact Hm|apply Hf].
Qed.

Lemma respects_when (c : bool) (m : M unit) :
  (c = true → respects R m) → respects R (when c m).
Proof. destruct c; simpl; [auto|]. intros _. apply respects_ret. Qed.

Lemma respects_forEach {A} (l : list A) (f : A → M unit) :
  (∀ x, x ∈ l → respects R (f x)) → respects R (forEach l f).
Proof.
  induction l as [|x l IH]; intros Hf; simpl; [apply respects_ret|].
  apply respects_bind; [apply Hf; left|].
  intros _. apply IH. intros y Hy. apply Hf. by right.
Qed.

Lemma respects_apply {A} (m : M A) s : respects R m → R s (m s).2.
Proof. intros Hm. apply Hm. Qed.

Lemma respects_modify_mgr (f : Manager → Manager) :
  (∀ s, R s (upd_mgr f s)) → respects R (modify_mgr f).
Proof. intros Hf s. apply Hf. Qed.

Lemma respects_modify_host (f : Host → Host) :
  (∀ s, R s (upd_host f s)) → respects R (modify_host f).
Proof. intros Hf s. apply Hf. Qed.

Lemma respects_modify_loop (f : Loop → Loop) :
  (∀ s, R s (upd_loop f s)) → respects R (modify_loop f).
Proof. intros Hf s. apply Hf. Qed.

End Respects.

(** Splits a method along its control structure; [tac] is left with the
    updates of the state. *)
Ltac respects_step tac :=
  lazymatch goal with
  | |- respects ?R (ret _) => apply (respects_ret R)
  | |- respects ?R throw => apply (respects_throw R)
  | |- respects ?R get_mgr => apply (respects_get_mgr R)
  | |- respects ?R get_host => apply (respects_get_host R)
  | |- respects ?R get_loop => apply (respects_get_loop R)
  | |- respects ?R (bind _ _) => apply (respects_bind R); [|intros ?]
  | |- respects ?R (try_catch _ _) => apply (respects_try_catch R)
  | |- respects ?R (try_finally _ _) => apply (respects_try_finally R)
  | |- respects ?R (when _ _) => apply (respects_when R); intros ?
  | |- respects ?R (forEach _ _) => apply (respects_forEach R); intros ? ?
  | |- respects ?R (modify_mgr _) =>
      apply (respects_modify_mgr R); intros ?; tac
  | |- respects ?R (modify_host _) =>
      apply (respects_modify_host R); intros ?; tac
  | |- respects ?R (modify_loop _) =>
      apply (respects_modify_loop R); intros ?; tac
  | |- respects _ (match ?x with _ => _ end) => destruct x eqn:?
  | |- respects _ (let _ := _ in _) => cbv zeta
  | |- respects _ _ =>
      progress unfold
        fs_call, set_dirs, fs_existsSync, fs_mkdirSync, fs_readdirSync,
        fs_statSync, fs_readFileSync, fs_writeFileSync, fs_unlinkSync,
        FileUtils.existsSync, FileUtils.existsSync_join, FileUtils.mkdirSync,
        FileUtils.readdirSync, FileUtils.readFileSync, JSON_parse,
        memory_set, globalState_update, getCacheDir, getCacheFilePath,
        setTimeout, clearTimeout, showInfo, await, await_ok,
        getCachedDirectoriesWithRefresh, getCachedDirectories,
        shouldRefreshInBackground, triggerBackgroundRefresh,
        setCachedDirectories, doPreloadCache, cleanupOldCacheFiles,
        cleanup_callback,
        clearCache, clearCache_files, getCacheStatus, isGitRepository,
        clearGitCache, dispose, fire_timer,
        performBackgroundRefresh_begin, performBackgroundRefresh_resume,
        settle_refresh, doBackgroundRefresh
  end.

Ltac respects_auto tac := repeat (respects_step tac).

(** *** Calls that leave the refresh bookkeeping alone *)

Global Instance keeps_refreshes_preorder : PreOrder keeps_refreshes.
Proof.
  split.
  - by intros s.
  - intros s1 s2 s3 (? & ? & ?) (? & ? & ?).
    unfold keeps_refreshes. repeat split; [congruence..|lia].
Qed.

Ltac keeps_tac :=
  unfold keeps_refreshes; simpl; repeat split; (done || lia).

Section RefreshFrame.
Context `{HashUtils}.

Lemma cleanupOldCacheFiles_keeps now :
  respects keeps_refreshes (cleanupOldCacheFiles now).
Proof. unfold cleanupOldCacheFiles. respects_auto keeps_tac. Qed.

Lemma doPreloadCache_keeps : respects keeps_refreshes doPreloadCache.
Proof. unfold doPreloadCache. respects_auto keeps_tac. Qed.

Lemma getCachedDirectories_keeps p :
  respects keeps_refreshes (getCachedDirectories p).
Proof. unfold getCachedDirectories. respects_auto keeps_tac. Qed.

Lemma getCachedDirectoriesWithRefresh_keeps p trigger now :
  respects keeps_refreshes (getCachedDirectoriesWithRefresh p trigger now).
Proof.
  unfold getCachedDirectoriesWithRefresh.
  apply (respects_bind _); [apply getCachedDirectories_keeps|intros ?].
  unfold shouldRefreshInBackground, triggerBackgroundRefresh.
  respects_auto keeps_tac.
Qed.

Lemma setCachedDirectories_keeps p dirs now :
  respects keeps_refreshes (setCachedDirectories p dirs now).
Proof. unfold setCachedDirectories. respects_auto keeps_tac. Qed.

Lemma doBackgroundRefresh_keeps c p now :
  respects keeps_refreshes (doBackgroundRefresh c p now).
Proof.
  unfold doBackgroundRefresh.
  repeat first [apply setCachedDirectories_keeps | respects_step keeps_tac].
Qed.

Lemma clearCache_keeps : respects keeps_refreshes clearCache.
Proof. unfold clearCache. respects_auto keeps_tac. Qed.

Lemma isGitRepository_keeps d now :
  respects keeps_refreshes (isGitRepository d now).
Proof. unfold isGitRepository. respects_auto keeps_tac. Qed.

Lemma clearGitCache_keeps : respects keeps_refreshes clearGitCache.
Proof. unfold clearGitCache. respects_auto keeps_tac. Qed.

Lemma dispose_keeps : respects keeps_refreshes dispose.
Proof. unfold dispose. respects_auto keeps_tac. Qed.

Lemma refresh_inv_keeps s s' :
  keeps_refreshes s s' → refresh_inv s → refresh_inv s'.
Proof.
  intros (Hb & Hs & Hn) [Hm Hsu Hf]. split.
  - intros r p. rewrite Hb, Hs. apply Hm.
  - intros k r. rewrite Hb, Hs. apply Hsu.
  - intros r p. rewrite Hs. intros Hr. specialize (Hf r p Hr). lia.
Qed.

Lemma constructor_refresh_inv h : refresh_inv (constructor h).
Proof.
  assert (Hk : keeps_refreshes (mkState new_manager h (mkLoop ∅ ∅ 0))
                               (constructor h)).
  { unfold constructor.
    assert (Hr : respects keeps_refreshes
                   (try_catch (getCacheDir ;; ret tt) (ret tt)))
      by respects_auto keeps_tac.
    apply Hr. }
  apply (refresh_inv_keeps _ _ Hk).
  split; simpl; intros *; by rewrite ?lookup_empty.
Qed.

Lemma try_finally_state {A} (m : M A) (f : M unit) s :
  (try_finally m f s).2 = (f (m s).2).2.
Proof.
  unfold try_finally. destruct (m s) as [[a|] s1]; simpl; [|done].
  by destruct (f s1) as [[[]|] s2].
Qed.

Lemma performBackgroundRefresh_begin_inv p now s :
  refresh_inv s → refresh_inv (performBackgroundRefresh_begin p now s).2.
Proof.
  intros [Hm Hsu Hf]. unfold performBackgroundRefresh_begin, bind. simpl.
  case_bool_decide as Hin; [by split|]. simpl.
  assert (Hnone : backgroundRefreshes (mgr s) !! getCacheKey p = None).
  { by apply eq_None_not_Some. }
  split; simpl.
  - intros r q. rewrite lookup_insert. case_decide as Hr.
    + intros [= <-]. subst r. by rewrite lookup_insert_eq.
    + intros Hq. rewrite lookup_insert_ne; [by apply Hm|].
      intros Heq. specialize (Hm r q Hq). congruence.
  - intros k r. rewrite lookup_insert. case_decide as Hk.
    + intros [= <-]. exists p. by rewrite lookup_insert_eq.
    + intros Hr. destruct (Hsu k r Hr) as (q & Hq & Hkq). exists q.
      split; [|done]. rewrite lookup_insert_ne; [done|].
      specialize (Hf r q Hq). lia.
  - intros r q. rewrite lookup_insert. case_decide as Hr.
    + intros _. lia.
    + intros Hq. specialize (Hf r q Hq). lia.
Qed.

Lemma fire_timer_inv t p now s :
  refresh_inv s → refresh_inv (fire_timer t p now s).2.
Proof.
  intros Hinv. unfold fire_timer, bind. simpl.
  apply performBackgroundRefresh_begin_inv.
  revert Hinv. apply refresh_inv_keeps. keeps_tac.
Qed.

Lemma settle_refresh_state r c p now s :
  ∃ s2,
    keeps_refreshes
      (upd_loop (λ l, mkLoop (timers l) (delete r (suspended l))
                             (nextHandle l)) s) s2
    ∧ (settle_refresh r c p now s).2
      = upd_mgr (λ m, with_backgroundRefreshes
                        (delete (getCacheKey p) (backgroundRefreshes m)) m) s2.
Proof.
  unfold settle_refresh, bind. simpl. rewrite try_finally_state.
  eexists. split; [|reflexivity].
  assert (Hr : respects keeps_refreshes
                 (try_catch (doBackgroundRefresh c p now) (ret tt))).
  { apply (respects_try_catch _);
      [apply doBackgroundRefresh_keeps|apply (respects_ret _)]. }
  apply Hr.
Qed.

Lemma settle_refresh_inv r c p now s :
  suspended (loop s) !! r = Some p →
  refresh_inv s → refresh_inv (settle_refresh r c p now s).2.
Proof.
  intros Hrp [Hm Hsu Hf].
  destruct (settle_refresh_state r c p now s) as (s2 & (Hb & Hs & Hn) & ->).
  simpl in Hb, Hs, Hn. split; simpl; rewrite ?Hb, ?Hs.
  - intros r' q. rewrite lookup_delete. case_decide; [done|]. intros Hq.
    rewrite lookup_delete_ne; [by apply Hm|].
    intros Heq. pose proof (Hm r' q Hq). pose proof (Hm r p Hrp).
    congruence.
  - intros k r'. rewrite lookup_delete. case_decide as Hk; [done|]. intros Hr'.
    destruct (Hsu k r' Hr') as (q & Hq & Hkq). exists q. split; [|done].
    rewrite lookup_delete_ne; [done|]. intros <-. congruence.
  - intros r' q. rewrite lookup_delete. case_decide; [done|]. intros Hq.
    specialize (Hf r' q Hq). lia.
Qed.

Lemma step_refresh_inv s s' : step s s' → refresh_inv s → refresh_inv s'.
Proof.
  destruct 1.
  - apply refresh_inv_keeps, getCachedDirectoriesWithRefresh_keeps.
  - apply refresh_inv_keeps, setCachedDirectories_keeps.
  - apply refresh_inv_keeps, doPreloadCache_keeps.
  - apply refresh_inv_keeps, cleanupOldCacheFiles_keeps.
  - apply refresh_inv_keeps, clearCache_keeps.
  - apply refresh_inv_keeps, isGitRepository_keeps.
  - apply refresh_inv_keeps, clearGitCache_keeps.
  - apply refresh_inv_keeps, dispose_keeps.
  - apply fire_timer_inv.
  - by apply settle_refresh_inv.
  - apply refresh_inv_keeps. keeps_tac.
Qed.

Lemma reachable_refresh_inv s : reachable s → refresh_inv s.
Proof.
  induction 1 as [h|s s' _ IH Hstep].
  - apply constructor_refresh_inv.
  - by apply (step_refresh_inv s).
Qed.

Lemma in_flight_elem s k r p :
  (r, p) ∈ in_flight s k ↔ suspended (loop s) !! r = Some p ∧ getCacheKey p = k.
Proof.
  unfold in_flight. rewrite list_elem_of_filter, elem_of_map_to_list.
  simpl. tauto.
Qed.

Lemma in_flight_NoDup s k : NoDup (in_flight s k).
Proof. apply NoDup_filter, NoDup_map_to_list. Qed.

Lemma in_flight_at_most_one s k :
  refresh_inv s → (length (in_flight s k) ≤ 1)%nat.
Proof.
  intros [Hm _ _].
  pose proof (in_flight_NoDup s k) as Hnd.
  destruct (in_flight s k) as [|[r1 p1] [|[r2 p2] l]] eqn:Hl; simpl; [lia..|].
  exfalso.
  assert (H1 : (r1, p1) ∈ in_flight s k) by (rewrite Hl; set_solver).
  assert (H2 : (r2, p2) ∈ in_flight s k) by (rewrite Hl; set_solver).
  apply in_flight_elem in H1 as [H1 K1], H2 as [H2 K2].
  pose proof (Hm _ _ H1) as M1. pose proof (Hm _ _ H2) as M2.
  rewrite K1 in M1. rewrite K2 in M2.
  assert (r1 = r2) as -> by congruence.
  assert (p1 = p2) as -> by congruence.
  apply NoDup_cons in Hnd as [Hnd _]. apply Hnd. left.
Qed.

End RefreshFrame.

(** *** Calls keep the memory tier at version 1 *)

Global Instance keeps_memory_inv_preorder : PreOrder keeps_memory_inv.
Proof. split; unfold keeps_memory_inv; [intros s|intros s1 s2 s3]; tauto. Qed.

Lemma version_is_1_true e : version_is_1 e = true → version e = Some 1.
Proof. apply bool_decide_eq_true_1. Qed.


Section MemoryFrame.
Context `{HashUtils}.




End MemoryFrame.

(** ** The claims *)

(** Runs the monad and the file-system calls on the state at hand. *)
Ltac run :=
  cbv beta iota zeta delta
    [bind ret throw try_catch try_finally when get_mgr get_host get_loop
     modify_mgr modify_host modify_loop fs_call set_dirs fs_existsSync
     fs_mkdirSync fs_readdirSync fs_statSync fs_readFileSync
     fs_writeFileSync fs_unlinkSync FileUtils.existsSync
     FileUtils.existsSync_join FileUtils.mkdirSync FileUtils.readdirSync
     FileUtils.readFileSync memory_set globalState_update await await_ok];
  simpl.

(** Opens a state into its fields. *)
Ltac open_state s :=
  destruct s as [[? ? ? ? ? ? ? ?] [[? ? ?] ? ? ? ? ? ?] [? ? ?]];
  simpl in *.

Section Claims.
Context `{HashUtils}.

(** *** Disabled cache *)

(** C10.  When caching is disabled by configuration, a lookup returns null
    whatever the memory and file tiers hold, and a store changes nothing:
    both leave the whole state, hence every tier, as it was. *)
Theorem disabled_cache_is_inert s p dirs now :
  cacheEnabled (host s) = false →
  getCachedDirectories p s = (Return None, s)
  ∧ setCachedDirectories p dirs now s = (Return tt, s).
Proof.
  intros Hoff. unfold getCachedDirectories, setCachedDirectories, bind.
  simpl. by rewrite Hoff.
Qed.

(** *** Store, then look up *)

Global Instance keeps_memory_preorder : PreOrder keeps_memory.
Proof.
  split; [by intros s|].
  intros s1 s2 s3 [? ?] [? ?]. split; congruence.
Qed.

Ltac keeps_memory_tac := unfold keeps_memory; simpl; by split.

(** What [setCachedDirectories] does after it has written the memory
    tier does not touch that tier. *)
Lemma setCachedDirectories_memory_written s p dirs now :
  cacheEnabled (host s) = true →
  let s' := (setCachedDirectories p dirs now s).2 in
  memoryCache (mgr s')
  = <[getCacheKey p := mkEntry dirs now (getCacheKey p) (Some 1)]>
      (memoryCache (mgr s))
  ∧ cacheEnabled (host s') = true.
Proof.
  intros Hon s'.
  assert (Hs' : keeps_memory
                  (upd_mgr (λ m, with_memoryCache
                     (<[getCacheKey p := mkEntry dirs now (getCacheKey p) (Some 1)]>
                        (memoryCache m)) m) s) s').
  { unfold s', setCachedDirectories.
    unfold bind at 1. simpl. rewrite Hon. simpl.
    unfold bind at 1. simpl.
    apply (respects_apply keeps_memory). respects_auto keeps_memory_tac. }
  destruct Hs' as [Hm Hc]. split; [exact Hm|etrans; [exact Hc|exact Hon]].
Qed.

Lemma getCachedDirectories_hit s p e :
  cacheEnabled (host s) = true →
  memoryCache (mgr s) !! getCacheKey p = Some e →
  getCachedDirectories p s = (Return (Some (directories e)), s).
Proof.
  intros Hon Hhit. unfold getCachedDirectories, bind. simpl.
  rewrite Hon. simpl. by rewrite Hhit.
Qed.

(** C1, as amended.  With caching enabled, a store followed at once by a
    lookup of the same parameters returns the list that was stored, from an
    entry of version 1; the lookup changes nothing. *)
Theorem store_then_lookup s p items now :
  cacheEnabled (host s) = true →
  let s1 := (setCachedDirectories p items now s).2 in
  getCachedDirectories p s1 = (Return (Some items), s1)
  ∧ ∃ e, memoryCache (mgr s1) !! getCacheKey p = Some e
         ∧ directories e = items ∧ version e = Some 1.
Proof.
  intros Hon s1.
  destruct (setCachedDirectories_memory_written s p items now Hon)
    as [Hmem Hon1]. fold s1 in Hmem, Hon1.
  assert (Hhit : memoryCache (mgr s1) !! getCacheKey p
                 = Some (mkEntry items now (getCacheKey p) (Some 1))).
  { rewrite Hmem. apply lookup_insert_eq. }
  split.
  - by rewrite (getCachedDirectories_hit s1 p _ Hon1 Hhit).
  - eauto.
Qed.

(** *** When to refresh *)

(** C3.  [shouldRefreshInBackground] answers false when a refresh of the
    key is in flight; false when fewer than 10000 ms have passed since the
    last refresh attempt recorded for the key; and true otherwise, the time
    of a key without a recorded attempt being 0, the epoch.  It never
    changes the state. *)
Theorem shouldRefresh_cases s p now :
  let k := getCacheKey p in
  (is_Some (backgroundRefreshes (mgr s) !! k) →
   shouldRefreshInBackground p now s = (Return false, s))
  ∧ (∀ t, lastRefreshTimes (mgr s) !! k = Some t →
          now - t < REFRESH_BUFFER_MS →
          shouldRefreshInBackground p now s = (Return false, s))
  ∧ (backgroundRefreshes (mgr s) !! k = None →
     REFRESH_BUFFER_MS ≤ now - default 0 (lastRefreshTimes (mgr s) !! k) →
     shouldRefreshInBackground p now s = (Return true, s)).
Proof.
  intros k. unfold shouldRefreshInBackground, bind. simpl. fold k.
  repeat split.
  - intros Hin. by rewrite bool_decide_eq_true_2.
  - intros t Ht Hlt. case_bool_decide; [done|].
    rewrite Ht. simpl.
    by rewrite (proj2 (Z.ltb_lt _ _) Hlt).
  - intros Hnone Hge. rewrite Hnone.
    rewrite bool_decide_eq_false_2 by (by intros [? ?]).
    by rewrite (proj2 (Z.ltb_ge _ _) Hge).
Qed.

(** *** A failed refresh *)

Lemma doBackgroundRefresh_fails s c p now :
  refresh_fails c → doBackgroundRefresh c p now s = (Return tt, s).
Proof.
  unfold refresh_fails, doBackgroundRefresh.
  destruct c as [imp paths rg fzf withFzf plain]. simpl.
  unfold try_catch, try_finally, bind, await_ok, await. simpl.
  intros Hfail.
  destruct imp; [|done]. simpl.
  destruct paths as [paths|]; [|done]. simpl.
  destruct rg; [|done]. simpl.
  destruct Hfail as [|[|[|Hfail]]]; [done..|].
  destruct fzf; simpl; by rewrite Hfail.
Qed.

(** C6.  When the work of a background refresh fails (an import, the
    search paths, ripgrep or the search rejects, the last also by the
    cancellation at the timeout), [doBackgroundRefresh] returns normally
    and leaves the whole state as it was; the completion of
    [performBackgroundRefresh] then throws nothing either and leaves the
    three tiers as they were before it. *)
Theorem refresh_failure_leaves_cache s r c p now :
  refresh_fails c →
  doBackgroundRefresh c p now s = (Return tt, s)
  ∧ (settle_refresh r c p now s).1 = Return tt
  ∧ tiers (settle_refresh r c p now s).2 = tiers s.
Proof.
  intros Hfail. split; [by apply doBackgroundRefresh_fails|].
  unfold settle_refresh, bind, try_finally, try_catch. simpl.
  by rewrite doBackgroundRefresh_fails.
Qed.

(** *** The git repository cache *)

(** [isGitRepository] always returns. *)
Lemma isGitRepository_returns s d now :
  ∃ b, (isGitRepository d now s).1 = Return b.
Proof.
  open_state s. unfold isGitRepository. run.
  repeat (case_match; simplify_eq/=; eauto).
Qed.

(** A path in the cache, within the expiry window: the cached value comes
    back and nothing changes, the count of file-system calls included. *)
Lemma isGitRepository_cached s d now b :
  now - gitCacheTimestamp (mgr s) ≤ GIT_CACHE_DURATION →
  gitRepoCache (mgr s) !! d = Some b →
  isGitRepository d now s = (Return b, s).
Proof.
  intros Hwin Hc. unfold isGitRepository, bind, when. simpl.
  rewrite Z.gtb_ltb, (proj2 (Z.ltb_ge _ _) Hwin).
  simpl. by rewrite Hc.
Qed.

Lemma isGitRepository_miss s d now :
  (now - gitCacheTimestamp (mgr s) >? GIT_CACHE_DURATION) = true
  ∨ gitRepoCache (mgr s) !! d = None →
  fs_mode (fs (host s)) = Unavailable
  ∨ entry_exists (fs (host s)) d ".git" = false →
  (isGitRepository d now s).1 = Return false
  ∧ gitRepoCache (mgr (isGitRepository d now s).2) !! d = Some false.
Proof.
  open_state s. unfold entry_exists, file_lookup, dir_exists. simpl.
  intros Hmiss Hcheck. unfold isGitRepository. run.
  unfold entry_exists, file_lookup, dir_exists. simpl.
  destruct (now - gitCacheTimestamp0 >? GIT_CACHE_DURATION) eqn:Hexp; simpl.
  - rewrite lookup_empty.
    destruct Hcheck as [-> | Hcheck]; simpl; [by rewrite lookup_insert_eq|].
    destruct fs_mode0; simpl; rewrite ?Hcheck; simpl;
      by rewrite lookup_insert_eq.
  - destruct Hmiss as [? | ->]; [done|].
    destruct Hcheck as [-> | Hcheck]; simpl; [by rewrite lookup_insert_eq|].
    destruct fs_mode0; simpl; rewrite ?Hcheck; simpl;
      by rewrite lookup_insert_eq.
Qed.

(** C9, as amended.  [isGitRepository] never throws.  When the call
    consults the file system (the shared expiry has passed, or the path is
    not in the cache) and the check fails or finds nothing at [path/.git],
    as for a path that does not exist, it returns false and caches false
    under the path; a later call for the path within the expiry window
    returns that cached false and makes no file-system call, whatever has
    become of the file system and the configuration meanwhile. *)
Theorem isGitRepository_negative_cached s d now :
  (∃ b, (isGitRepository d now s).1 = Return b)
  ∧ ((now - gitCacheTimestamp (mgr s) >? GIT_CACHE_DURATION) = true
     ∨ gitRepoCache (mgr s) !! d = None →
     fs_mode (fs (host s)) = Unavailable
     ∨ entry_exists (fs (host s)) d ".git" = false →
     let s1 := (isGitRepository d now s).2 in
     (isGitRepository d now s).1 = Return false
     ∧ gitRepoCache (mgr s1) !! d = Some false
     ∧ ∀ now2 dirs mode enabled refresh,
         now2 - gitCacheTimestamp (mgr s1) ≤ GIT_CACHE_DURATION →
         let s2 := outside dirs mode enabled refresh s1 in
         isGitRepository d now2 s2 = (Return false, s2)
         ∧ fs_calls (fs (host (isGitRepository d now2 s2).2))
           = fs_calls (fs (host s1))).
Proof.
  split; [apply isGitRepository_returns|].
  intros Hmiss Hcheck s1.
  destruct (isGitRepository_miss s d now Hmiss Hcheck) as [Hret Hcached].
  fold s1 in Hcached. split; [done|]. split; [done|].
  intros now2 dirs mode enabled refresh Hwin s2.
  assert (Hsecond : isGitRepository d now2 s2 = (Return false, s2))
    by by apply isGitRepository_cached.
  by rewrite Hsecond.
Qed.

(** *** One refresh per key *)

(** C2.  In every reachable state each cache key has at most one background
    refresh in flight; starting a refresh for a key that has one in flight
    does nothing; and when a refresh completes, whatever its collaborators
    answered, the marker of its key is removed and no refresh of that key
    is in flight any more. *)
Theorem one_refresh_per_key s :
  reachable s →
  (∀ k, (length (in_flight s k) ≤ 1)%nat)
  ∧ (∀ p now,
       in_flight s (getCacheKey p) ≠ [] →
       performBackgroundRefresh_begin p now s = (Return tt, s))
  ∧ (∀ r c p now,
       suspended (loop s) !! r = Some p →
       let s' := (settle_refresh r c p now s).2 in
       backgroundRefreshes (mgr s') !! getCacheKey p = None
       ∧ in_flight s' (getCacheKey p) = []).
Proof.
  intros Hreach. pose proof (reachable_refresh_inv s Hreach) as Hinv.
  split; [|split].
  - intros k. by apply in_flight_at_most_one.
  - intros p now Hne.
    destruct (in_flight s (getCacheKey p)) as [|[r q] l] eqn:Hl; [done|].
    assert (Hin : (r, q) ∈ in_flight s (getCacheKey p))
      by (rewrite Hl; left).
    apply in_flight_elem in Hin as [Hq Hk].
    pose proof (inv_marker s Hinv r q Hq) as Hm. rewrite Hk in Hm.
    unfold performBackgroundRefresh_begin, bind. simpl.
    rewrite bool_decide_eq_true_2; [done|by eexists].
  - intros r c p now Hrp s'.
    pose proof (settle_refresh_inv r c p now s Hrp Hinv) as Hinv'.
    fold s' in Hinv'.
    assert (Hnone : backgroundRefreshes (mgr s') !! getCacheKey p = None).
    { unfold s'.
      destruct (settle_refresh_state r c p now s) as (s2 & _ & ->).
      simpl. apply lookup_delete_eq. }
    split; [done|].
    destruct (in_flight s' (getCacheKey p)) as [|[r' q] l] eqn:Hl; [done|].
    assert (Hin : (r', q) ∈ in_flight s' (getCacheKey p))
      by (rewrite Hl; left).
    apply in_flight_elem in Hin as [Hq Hk].
    pose proof (inv_marker s' Hinv' r' q Hq) as Hm. rewrite Hk in Hm.
    congruence.
Qed.

(** *** The cache key *)

(** C8.  The key is a function of the three serialised fields: parameters
    whose [searchPath], [excludePatterns] and [additionalRipgrepArgs] are
    equal element by element have the same key; and parameters whose fields
    hold the same values, one of them in a different order, have different
    keys. *)
Theorem getCacheKey_order_sensitive p1 p2 :
  (searchPath p1 = searchPath p2 →
   excludePatterns p1 = excludePatterns p2 →
   additionalRipgrepArgs p1 = additionalRipgrepArgs p2 →
   getCacheKey p1 = getCacheKey p2)
  ∧ (Permutation (searchPath p1) (searchPath p2) →
     Permutation (excludePatterns p1) (excludePatterns p2) →
     Permutation (additionalRipgrepArgs p1) (additionalRipgrepArgs p2) →
     searchPath p1 ≠ searchPath p2
     ∨ excludePatterns p1 ≠ excludePatterns p2
     ∨ additionalRipgrepArgs p1 ≠ additionalRipgrepArgs p2 →
     getCacheKey p1 ≠ getCacheKey p2).
Proof.
  split.
  - intros Hs He Ha. unfold getCacheKey. by rewrite Hs, He, Ha.
  - intros _ _ _ Hdiff Hkey.
    apply getCacheKey_inj in Hkey as (Hs & He & Ha). tauto.
Qed.

(** *** Which tier a store writes *)

Global Instance keeps_globalState_preorder : PreOrder keeps_globalState.
Proof.
  split; [by intros s|].
  intros s1 s2 s3 ? ?. unfold keeps_globalState in *. congruence.
Qed.






(** *** Entries of another version *)

Lemma bind_return {A B} (m : M A) (k : A → M B) s a s' :
  m s = (Return a, s') → bind m k s = k a s'.
Proof. intros Hm. unfold bind. by rewrite Hm. Qed.

Lemma getCacheDir_resolved s d :
  truthy (cacheDir (mgr s)) = Some d → getCacheDir s = (Return d, s).
Proof. intros Hd. unfold getCacheDir, bind. simpl. by rewrite Hd. Qed.

Lemma existsSync_run s d :
  fs_mode (fs (host s)) ≠ Unavailable →
  ∃ s', FileUtils.existsSync d s = (Return (dir_exists (fs (host s)) d), s')
        ∧ fs_dirs (fs (host s')) = fs_dirs (fs (host s))
        ∧ fs_mode (fs (host s')) = fs_mode (fs (host s)).
Proof.
  intros Hmode. open_state s. run. unfold dir_exists. simpl.
  destruct fs_mode0; [eauto| eauto |done].
Qed.

Lemma readdirSync_run s d files :
  fs_mode (fs (host s)) ≠ Unavailable →
  fs_dirs (fs (host s)) !! d = Some files →
  ∃ s', fs_readdirSync d s
        = (Return ((map_to_list files).*1 ++ subdirs (fs_dirs (fs (host s))) d),
           s')
        ∧ fs_dirs (fs (host s')) = fs_dirs (fs (host s))
        ∧ fs_mode (fs (host s')) = fs_mode (fs (host s)).
Proof.
  intros Hmode Hd. open_state s. run. rewrite Hd.
  destruct fs_mode0; [eauto| eauto |done].
Qed.

(** One file of the cleanup pass, on a healthy file system. *)
Lemma cleanup_callback_healthy now d :
  ∀ file files c s,
  fs_mode (fs (host s)) = Healthy →
  fs_dirs (fs (host s)) !! d = Some files →
  files !! file = Some c →
  ∃ s', cleanup_callback now d file s = (Return tt, s')
        ∧ fs_mode (fs (host s')) = Healthy
        ∧ fs_dirs (fs (host s'))
          = <[d := if purged now file c then delete file files else files]>
              (fs_dirs (fs (host s))).
Proof.
  intros file files c s Hmode Hd Hf. open_state s. subst.
  unfold cleanup_callback, purged, JSON_parse. run. unfold file_lookup. simpl.
  assert (Hid : <[d := files]> fs_dirs0 = fs_dirs0) by by apply insert_id.
  destruct (endsWith file ".json"); simpl.
  2: { eexists. split; [reflexivity|]. split; [reflexivity|]. by simpl. }
  repeat (progress (rewrite ?Hd, ?Hf; simpl)).
  destruct c as [| | |e]; simpl; repeat (progress (rewrite ?Hd, ?Hf; simpl));
    try (eexists; split; [reflexivity|]; split; [reflexivity|]; by simpl).
  destruct ((now - timestamp e >? maxAge) || negb (version_is_1 e)); simpl;
    repeat (progress (rewrite ?Hd, ?Hf; simpl));
    eexists; (split; [reflexivity|]); (split; [reflexivity|]); by simpl.
Qed.

(** A loop over the names of a directory whose callback [cb] deletes the
    files selected by [del] and leaves the others. *)
Lemma delete_loop_healthy (cb : string → M unit)
    (del : string → FileContent → bool) d :
  (∀ file files c s,
     fs_mode (fs (host s)) = Healthy →
     fs_dirs (fs (host s)) !! d = Some files →
     files !! file = Some c →
     ∃ s', cb file s = (Return tt, s')
           ∧ fs_mode (fs (host s')) = Healthy
           ∧ fs_dirs (fs (host s'))
             = <[d := if del file c then delete file files else files]>
                 (fs_dirs (fs (host s)))) →
  ∀ l s files,
    NoDup l →
    (∀ n, n ∈ l → is_Some (files !! n)) →
    fs_mode (fs (host s)) = Healthy →
    fs_dirs (fs (host s)) !! d = Some files →
    ∃ s' files',
      forEach l cb s = (Return tt, s')
      ∧ fs_mode (fs (host s')) = Healthy
      ∧ fs_dirs (fs (host s')) = <[d := files']> (fs_dirs (fs (host s)))
      ∧ ∀ n, files' !! n
             = c ← files !! n;
               if bool_decide (n ∈ l) && del n c then None else Some c.
Proof.
  intros Hcb.
  induction l as [|x l IH]; intros s files Hnd Hin Hmode Hd.
  - exists s, files. simpl. split; [done|]. split; [done|].
    split; [by rewrite insert_id|].
    intros n. by destruct (files !! n).
  - apply NoDup_cons in Hnd as [Hx Hnd].
    destruct (Hin x) as [c Hc]; [left|].
    destruct (Hcb x files c s Hmode Hd Hc) as (s1 & Hrun & Hmode1 & Hd1).
    set (files1 := if del x c then delete x files else files) in *.
    assert (Hother : ∀ n, n ≠ x → files1 !! n = files !! n).
    { intros n Hn. unfold files1.
      destruct (del x c); [by rewrite lookup_delete_ne|done]. }
    destruct (IH s1 files1 Hnd) as (s' & files' & Hloop & Hmode' & Hd' & Hl).
    { intros n Hn. rewrite Hother; [apply Hin; by right|].
      by intros ->. }
    { done. }
    { rewrite Hd1. apply lookup_insert_eq. }
    exists s', files'. simpl. rewrite (bind_return _ _ _ _ _ Hrun).
    split; [done|]. split; [done|].
    split; [by rewrite Hd', Hd1, insert_insert_eq|].
    intros n. rewrite Hl. destruct (decide (n = x)) as [->|Hn].
    + rewrite (bool_decide_eq_false_2 (x ∈ l)) by done. simpl.
      rewrite (bool_decide_eq_true_2 (x ∈ x :: l)) by left. simpl.
      unfold files1. rewrite Hc. simpl.
      destruct (del x c); [by rewrite lookup_delete_eq|by rewrite Hc].
    + rewrite Hother by done.
      destruct (files !! n) as [c'|]; [|done]. simpl.
      assert (bool_decide (n ∈ l) = bool_decide (n ∈ x :: l)) as ->; [|done].
      apply bool_decide_ext. rewrite elem_of_cons. tauto.
Qed.

Lemma names_NoDup {V} (files : gmap string V) :
  NoDup (map_to_list files).*1.
Proof. apply NoDup_fst_map_to_list. Qed.

Lemma names_elem {V} (files : gmap string V) n :
  n ∈ (map_to_list files).*1 ↔ is_Some (files !! n).
Proof.
  rewrite list_elem_of_fmap. split.
  - intros ([n' c] & -> & Hn). apply elem_of_map_to_list in Hn. by eexists.
  - intros [c Hc]. exists (n, c). split; [done|].
    by apply elem_of_map_to_list.
Qed.

(** *** The listing of a directory *)

Lemma strip_prefix_Some p : ∀ s n, strip_prefix p s = Some n ↔ s = p +:+ n.
Proof.
  induction p as [|a p IH]; intros s n.
  - rewrite app_empty_l. simpl. split; [by intros [= ->]|by intros ->].
  - rewrite app_cons. destruct s as [|b s]; simpl; [done|].
    destruct (Ascii.eqb_spec a b) as [->|Hne].
    + rewrite IH. split; [by intros ->|by intros [= ->]].
    + split; [done|]. intros [= ? ?]. by destruct Hne.
Qed.

(** The sub-directories listed are the directories directly under [d]. *)
Lemma subdirs_elem dirs d n :
  n ∈ subdirs dirs d
  ↔ n ≠ EmptyString ∧ has_separator n = false
    ∧ is_Some (dirs !! path_join d n).
Proof.
  unfold subdirs. rewrite list_elem_of_omap. split.
  - intros (k & Hk & Hn). apply names_elem in Hk. unfold child_name in Hn.
    destruct (strip_prefix (d +:+ "/") k) as [[|c m]|] eqn:Hstrip; [done| |done].
    destruct (has_separator (String c m)) eqn:Hsep; [done|].
    injection Hn as <-. apply strip_prefix_Some in Hstrip.
    split; [done|]. split; [done|].
    unfold path_join. by rewrite <- app_assoc, <- Hstrip.
  - intros (Hne & Hsep & Hdir). exists (path_join d n).
    split; [by apply names_elem|].
    unfold child_name, path_join.
    rewrite <- app_assoc, (proj2 (strip_prefix_Some _ _ n) eq_refl).
    destruct n as [|c m]; [done|]. by rewrite Hsep.
Qed.

Lemma no_json_subdir_elem f d n :
  no_json_subdir f d = true →
  n ∈ subdirs (fs_dirs f) d → endsWith n ".json" = false.
Proof.
  unfold no_json_subdir. rewrite forallb_forall. intros Hall Hn.
  apply negb_true_iff, Hall. by apply list_elem_of_In.
Qed.

(** The directories staying the same, so does the absence of a
    sub-directory named [*.json]. *)
Lemma no_json_subdir_dom f f' d :
  (∀ k, is_Some (fs_dirs f' !! k) → is_Some (fs_dirs f !! k)) →
  no_json_subdir f d = true → no_json_subdir f' d = true.
Proof.
  intros Hdom Hf. unfold no_json_subdir. apply forallb_forall.
  intros n Hn. apply negb_true_iff, (no_json_subdir_elem f d n Hf).
  apply list_elem_of_In, subdirs_elem in Hn as (Hne & Hsep & Hdir).
  apply subdirs_elem. eauto.
Qed.

(** The entries of a listing on which the callback does nothing are
    passed over. *)
Lemma forEach_skip_tail {A} (f : A → M unit) (l1 l2 : list A) :
  (∀ x s, x ∈ l2 → f x s = (Return tt, s)) →
  ∀ s, forEach (l1 ++ l2) f s = forEach l1 f s.
Proof.
  intros Hskip. induction l1 as [|x l1 IH]; intros s; simpl.
  - clear -Hskip. induction l2 as [|x l2 IH]; [done|]. simpl.
    unfold bind. rewrite Hskip by left. apply IH.
    intros y s' Hy. apply Hskip. by right.
  - unfold bind. destruct (f x s) as [[[]|] s1]; [apply IH|done].
Qed.

(** The cleanup pass on a healthy file system, with the cache directory
    resolved: it deletes the purged files of that directory and no other. *)
Lemma cleanupOldCacheFiles_healthy now s d n :
  fs_mode (fs (host s)) = Healthy →
  truthy (cacheDir (mgr s)) = Some d →
  no_json_subdir (fs (host s)) d = true →
  file_lookup (fs (host (cleanupOldCacheFiles now s).2)) d n
  = c ← file_lookup (fs (host s)) d n;
    if purged now n c then None else Some c.
Proof.
  intros Hmode Hd Hsub. unfold cleanupOldCacheFiles, try_catch.
  rewrite (bind_return _ _ _ _ _ (getCacheDir_resolved s d Hd)).
  destruct (existsSync_run s d) as (s1 & Hrun1 & Hd1 & Hm1);
    [by rewrite Hmode|].
  rewrite (bind_return _ _ _ _ _ Hrun1).
  unfold file_lookup at 2. unfold dir_exists.
  destruct (fs_dirs (fs (host s)) !! d) as [files|] eqn:Hfiles; simpl.
  2: { unfold file_lookup. by rewrite Hd1, Hfiles. }
  destruct (readdirSync_run s1 d files) as (s2 & Hrun2 & Hd2 & Hm2);
    [by rewrite Hm1, Hmode|by rewrite Hd1|].
  unfold FileUtils.readdirSync. rewrite (bind_return _ _ _ _ _ Hrun2).
  rewrite forEach_skip_tail.
  2: { intros x s' Hx. rewrite Hd1 in Hx. unfold cleanup_callback.
       by rewrite (no_json_subdir_elem _ d x Hsub Hx). }
  destruct (delete_loop_healthy (cleanup_callback now d) (purged now) d
              (cleanup_callback_healthy now d)
              (map_to_list files).*1 s2 files)
    as (s3 & files' & Hloop & Hm3 & Hd3 & Hl).
  { apply names_NoDup. }
  { intros x. by rewrite names_elem. }
  { by rewrite Hm2, Hm1. }
  { by rewrite Hd2, Hd1. }
  rewrite Hloop. simpl. unfold file_lookup. rewrite Hd3, lookup_insert_eq.
  simpl. rewrite Hl. destruct (files !! n) as [c|] eqn:Hn; [|done]. simpl.
  rewrite bool_decide_eq_true_2; [done|].
  apply names_elem. by eexists.
Qed.

(** What a lookup returns is what the memory tier holds for the key once
    the lookup is over. *)
Lemma getCachedDirectories_serves_memory s p dirs s' :
  getCachedDirectories p s = (Return (Some dirs), s') →
  ∃ e, memoryCache (mgr s') !! getCacheKey p = Some e ∧ directories e = dirs.
Proof.
  unfold getCachedDirectories. cbv [bind get_host get_mgr ret try_catch].
  destruct (cacheEnabled (host s)); simpl; [|by intros [=]].
  destruct (memoryCache (mgr s) !! getCacheKey p) as [e|] eqn:Hmem; simpl.
  { intros [= <- <-]. eauto. }
  destruct (getCacheFilePath (getCacheKey p) None s) as [[[d n]|] s1];
    simpl; [|by intros [=]].
  destruct (FileUtils.existsSync_join d n s1) as [[[]|] s2];
    simpl; [|by intros [=]..].
  destruct (FileUtils.readFileSync d n s2) as [[c|] s3];
    simpl; [|by intros [=]].
  destruct (falsy_content c); simpl; [by intros [=]|].
  destruct (JSON_parse c s3) as [[[e|]|] s4]; simpl; [|by intros [=]..].
  destruct (version_is_1 e); simpl; [|by intros [=]].
  intros [= <- <-]. exists e. simpl. by rewrite lookup_insert_eq.
Qed.



(** *** Clearing the cache *)

Global Instance same_on_preorder {A} (f : State → A) : PreOrder (same_on f).
Proof.
  split; [by intros s|].
  intros s1 s2 s3 ? ?. unfold same_on in *. congruence.
Qed.


Lemma try_catch_ret_tt (m : M unit) s :
  try_catch m (ret tt) s = (Return tt, (m s).2).
Proof. unfold try_catch. by destruct (m s) as [[[]|] s1]. Qed.

(** The loop of [clearCache] over the keys of [globalState]. *)
Lemma clear_globalState_loop l :
  ∀ s, ∃ g',
    forEach l (λ key, when (startsWith key "rip-scope-cache-")
                           (globalState_update key None)) s
    = (Return tt, upd_host (with_globalState g') s)
    ∧ ∀ k, g' !! k
           = if bool_decide (k ∈ l) && startsWith k "rip-scope-cache-"
             then None else globalState (host s) !! k.
Proof.
  induction l as [|x l IH]; intros s.
  - exists (globalState (host s)). split; [|done].
    by destruct s as [m [] lp].
  - simpl. destruct (startsWith x "rip-scope-cache-") eqn:Hx; simpl.
    + unfold bind at 1. simpl.
      destruct (IH (upd_host (λ h, with_globalState
                                     (delete x (globalState h)) h) s))
        as (g' & Hrun & Hg').
      exists g'. split; [by rewrite Hrun|].
      intros k. rewrite Hg'. simpl.
      destruct (decide (k = x)) as [->|Hk].
      * rewrite (bool_decide_eq_true_2 (x ∈ x :: l)) by left.
        rewrite Hx, lookup_delete_eq. simpl. by destruct (_ && _).
      * rewrite lookup_delete_ne by done.
        assert (bool_decide (k ∈ l) = bool_decide (k ∈ x :: l)) as ->;
          [|done].
        apply bool_decide_ext. rewrite elem_of_cons. tauto.
    + unfold bind at 1. simpl.
      destruct (IH s) as (g' & Hrun & Hg').
      exists g'. split; [done|].
      intros k. rewrite Hg'.
      destruct (decide (k = x)) as [->|Hk].
      * rewrite Hx, !andb_false_r. done.
      * assert (bool_decide (k ∈ l) = bool_decide (k ∈ x :: l)) as ->;
          [|done].
        apply bool_decide_ext. rewrite elem_of_cons. tauto.
Qed.

Lemma unlink_callback_healthy d :
  ∀ file files c s,
    fs_mode (fs (host s)) = Healthy →
    fs_dirs (fs (host s)) !! d = Some files →
    files !! file = Some c →
    ∃ s', when (endsWith file ".json") (fs_unlinkSync d file) s
          = (Return tt, s')
          ∧ fs_mode (fs (host s')) = Healthy
          ∧ fs_dirs (fs (host s'))
            = <[d := if endsWith file ".json" then delete file files
                     else files]> (fs_dirs (fs (host s))).
Proof.
  intros file files c s Hmode Hd Hf. open_state s. subst. run.
  assert (Hid : <[d := files]> fs_dirs0 = fs_dirs0) by by apply insert_id.
  destruct (endsWith file ".json"); simpl;
    repeat (progress (rewrite ?Hd, ?Hf; simpl));
    eexists; (split; [reflexivity|]); (split; [reflexivity|]); by simpl.
Qed.

Lemma fs_existsSync_run s d :
  fs_mode (fs (host s)) ≠ Unavailable →
  ∃ s', fs_existsSync d s = (Return (dir_exists (fs (host s)) d), s')
        ∧ fs_dirs (fs (host s')) = fs_dirs (fs (host s))
        ∧ fs_mode (fs (host s')) = fs_mode (fs (host s)).
Proof.
  intros Hmode. open_state s. run. unfold dir_exists. simpl.
  destruct fs_mode0; [eauto| eauto |done].
Qed.

(** The file part of [clearCache] on a healthy file system whose cache
    directory has no sub-directory named [*.json]. *)
Lemma clear_files_healthy s d :
  fs_mode (fs (host s)) = Healthy →
  truthy (cacheDir (mgr s)) = Some d →
  no_json_subdir (fs (host s)) d = true →
  (∀ n, file_lookup (fs (host (clearCache_files s).2)) d n
        = if endsWith n ".json" then None else file_lookup (fs (host s)) d n)
  ∧ no_json_subdir (fs (host (clearCache_files s).2)) d = true.
Proof.
  intros Hmode Hd Hsub. unfold clearCache_files.
  rewrite (bind_return _ _ _ _ _ (getCacheDir_resolved s d Hd)).
  destruct (fs_existsSync_run s d) as (s1 & Hrun1 & Hd1 & Hm1);
    [by rewrite Hmode|].
  rewrite (bind_return _ _ _ _ _ Hrun1). unfold dir_exists.
  destruct (fs_dirs (fs (host s)) !! d) as [files|] eqn:Hfiles; simpl.
  2: { split.
       - intros n. unfold file_lookup. rewrite Hd1, Hfiles. simpl.
         by destruct (endsWith n ".json").
       - unfold no_json_subdir. by rewrite Hd1. }
  destruct (readdirSync_run s1 d files) as (s2 & Hrun2 & Hd2 & Hm2);
    [by rewrite Hm1, Hmode|by rewrite Hd1|].
  rewrite (bind_return _ _ _ _ _ Hrun2).
  rewrite forEach_skip_tail.
  2: { intros x s' Hx. rewrite Hd1 in Hx.
       by rewrite (no_json_subdir_elem _ d x Hsub Hx). }
  destruct (delete_loop_healthy
              (λ file, when (endsWith file ".json") (fs_unlinkSync d file))
              (λ file _, endsWith file ".json") d
              (unlink_callback_healthy d)
              (map_to_list files).*1 s2 files)
    as (s3 & files' & Hloop & Hm3 & Hd3 & Hl).
  { apply names_NoDup. }
  { intros x. by rewrite names_elem. }
  { by rewrite Hm2, Hm1. }
  { by rewrite Hd2, Hd1. }
  rewrite Hloop. simpl. split.
  - intros n. unfold file_lookup. rewrite Hd3, lookup_insert_eq, Hfiles.
    simpl. rewrite Hl. destruct (files !! n) as [c|] eqn:Hn; simpl.
    + rewrite bool_decide_eq_true_2; [done|]. apply names_elem. by eexists.
    + by destruct (endsWith n ".json").
  - apply (no_json_subdir_dom (fs (host s))); [|done].
    intros k. rewrite Hd3, Hd2, Hd1, lookup_insert_is_Some.
    intros [<-|[_ Hk]]; [by rewrite Hfiles|done].
Qed.

Lemma clearCache_run s :
  ∃ g',
    (∀ k, g' !! k = if startsWith k "rip-scope-cache-" then None
                    else globalState (host s) !! k)
    ∧ clearCache s
      = (Return tt,
         upd_host
           (λ h, with_shown
                   (("Cache cleared. Removed "
                     +:+ pretty (size (memoryCache (mgr s)))
                     +:+ " entries.") :: shown h) h)
           (clearCache_files
              (upd_host (with_globalState g')
                        (upd_mgr (with_memoryCache ∅) s))).2).
Proof.
  destruct (clear_globalState_loop (map_to_list (globalState (host s))).*1
              (upd_mgr (with_memoryCache ∅) s)) as (g' & Hrun & Hg').
  exists g'. split.
  - intros k. rewrite Hg'. simpl.
    destruct (startsWith k "rip-scope-cache-"); [|by rewrite andb_false_r].
    rewrite andb_true_r. case_bool_decide as Hk; [done|].
    rewrite names_elem in Hk. by apply eq_None_not_Some.
  - unfold clearCache. unfold bind at 1. simpl.
    unfold bind at 1. simpl. unfold bind at 1. simpl.
    unfold bind at 1. simpl in Hrun. rewrite Hrun.
    unfold bind at 1. by rewrite try_catch_ret_tt.
Qed.


End Claims.

(** ** Further properties of the cache manager *)

(** Closes the goals of a call that leaves an observation alone. *)
Ltac frame_tac := unfold same_on; simpl; done.

(** Case analysis on the outcome of the calls met, innermost first. *)
Ltac on_calls tac :=
  repeat
    (simpl;
     match goal with
     | |- context [let (_, _) := ?x in _] =>
         lazymatch x with
         | context [match _ with _ => _ end] => fail
         | _ => destruct x as [[?|] ?]
         end
     | |- context [if ?b then _ else _] => destruct b
     | _ => tac
     end).

Section Further.
Context `{HashUtils}.

(** *** The key *)

(** X1.  Two parameter tuples have the same cache key exactly when their
    [searchPath], [excludePatterns] and [additionalRipgrepArgs] are equal;
    no other field takes part. *)
Theorem cache_key_identifies_search p1 p2 :
  getCacheKey p1 = getCacheKey p2
  ↔ searchPath p1 = searchPath p2
    ∧ excludePatterns p1 = excludePatterns p2
    ∧ additionalRipgrepArgs p1 = additionalRipgrepArgs p2.
Proof.
  split; [apply getCacheKey_inj|].
  intros (Hs & He & Ha). unfold getCacheKey. by rewrite Hs, He, Ha.
Qed.

(** *** The cache directory *)

Lemma truthy_path_join d n : truthy (Some (path_join d n)) = Some (path_join d n).
Proof. by destruct d. Qed.


(** Once [getCacheDir] has returned, the directory is recorded. *)
Lemma getCacheDir_records s d s' :
  getCacheDir s = (Return d, s') → truthy (cacheDir (mgr s')) = Some d.
Proof.
  unfold getCacheDir. cbv [bind get_mgr get_host try_catch when ret modify_mgr].
  destruct (truthy (cacheDir (mgr s))) as [d0|] eqn:Hd.
  { by intros [= <- <-]. }
  repeat
    (simpl;
     match goal with
     | |- (Throw, _) = (Return _, _) → _ => by intros [=]
     | |- (Return _, _) = (Return _, _) → _ =>
         intros [= <- <-]; simpl; apply truthy_path_join
     | |- context [let (_, _) := ?x in _] =>
         lazymatch x with
         | context [match _ with _ => _ end] => fail
         | _ => destruct x as [[?|] ?]
         end
     | |- context [if ?b then _ else _] => destruct b
     end).
Qed.

(** X2.  [getCacheDir] remembers its answer: once it has returned a
    directory, the next call returns the same directory and leaves the
    state as it is, without a file-system call, whatever the file system
    has become. *)
Theorem getCacheDir_is_cached s d s' :
  getCacheDir s = (Return d, s') →
  ∀ dirs mode enabled refresh,
    let s'' := outside dirs mode enabled refresh s' in
    getCacheDir s'' = (Return d, s'').
Proof.
  intros Hrun dirs mode enabled refresh s''.
  apply getCacheDir_resolved. exact (getCacheDir_records s d s' Hrun).
Qed.




(** *** Lookups *)

(** A lookup that misses the memory tier and finds no cache file. *)
Lemma lookup_miss s p d :
  memoryCache (mgr s) !! getCacheKey p = None →
  truthy (cacheDir (mgr s)) = Some d →
  file_lookup (fs (host s)) d
              ("cache_" +:+ generateHash (getCacheKey p) +:+ ".json") = None →
  (getCachedDirectories p s).1 = Return None.
Proof.
  intros Hmem Hd Hfile.
  unfold getCachedDirectories, getCacheFilePath. simpl.
  cbv [bind get_host get_mgr ret try_catch].
  destruct (cacheEnabled (host s)); simpl; [|done].
  rewrite Hmem, (getCacheDir_resolved s d Hd). simpl.
  open_state s. run.
  unfold entry_exists, file_lookup, dir_exists, JSON_parse in *. simpl in *.
  destruct fs_mode0; simpl; [..|done];
    (destruct (_ || _); simpl; [|done]);
    repeat (progress (rewrite ?Hfile; simpl)); done.
Qed.




(** X5.  A lookup that has returned a list can be repeated: with caching
    still enabled, the next lookup of the same parameters returns the same
    list from the memory tier and changes nothing, whatever has become of
    the file system. *)
Theorem lookup_is_repeatable s p dirs s' :
  getCachedDirectories p s = (Return (Some dirs), s') →
  ∀ fsdirs mode refresh,
    let s'' := outside fsdirs mode true refresh s' in
    getCachedDirectories p s'' = (Return (Some dirs), s'').
Proof.
  intros Hrun fsdirs mode refresh s''.
  destruct (getCachedDirectories_serves_memory s p dirs s' Hrun)
    as (e & He & <-).
  by apply getCachedDirectories_hit.
Qed.



(** X4.  A lookup never throws, whatever the file system does; and the
    lookup with refresh returns exactly what the plain lookup returns. *)
Theorem lookup_never_throws s p trigger now :
  (∃ r, (getCachedDirectories p s).1 = Return r)
  ∧ (getCachedDirectoriesWithRefresh p trigger now s).1
    = (getCachedDirectories p s).1.
Proof.
  assert (Hret : ∃ r, (getCachedDirectories p s).1 = Return r).
  { unfold getCachedDirectories.
    cbv [bind get_host get_mgr ret try_catch].
    destruct (cacheEnabled (host s)); simpl; [|eauto].
    destruct (memoryCache (mgr s) !! getCacheKey p) as [e|]; simpl; [eauto|].
    on_calls fail; repeat case_match; simplify_eq/=; eauto. }
  split; [exact Hret|].
  destruct Hret as [r Hr].
  unfold getCachedDirectoriesWithRefresh.
  unfold bind at 1.
  destruct (getCachedDirectories p s) as [[r'|] s1]; simpl in *; [|done].
  unfold shouldRefreshInBackground, triggerBackgroundRefresh, setTimeout,
    clearTimeout.
  cbv [bind get_host get_mgr get_loop modify_mgr modify_loop ret when].
  on_calls fail; try done.
  by destruct (refreshDebounceTimers (mgr s1) !! getCacheKey p).
Qed.

(** *** The cleanup pass *)

(** X8.  The cleanup pass never throws and leaves the memory tier and the
    structured tier alone; on a healthy file system, the cache directory
    having no sub-directory named [*.json] (the pass stops at one), it
    deletes from the cache directory exactly the [.json] files that do not
    parse, hold [null], or hold an entry older than 24 hours or of a
    version other than 1: an entry of version 1 no older than that, a file
    of another name, and an empty file all stay. *)
Theorem cleanup_deletes_exactly_the_stale now s :
  let s' := (cleanupOldCacheFiles now s).2 in
  (cleanupOldCacheFiles now s).1 = Return tt
  ∧ memoryCache (mgr s') = memoryCache (mgr s)
  ∧ globalState (host s') = globalState (host s)
  ∧ ∀ d, fs_mode (fs (host s)) = Healthy →
         truthy (cacheDir (mgr s)) = Some d →
         no_json_subdir (fs (host s)) d = true →
         (∀ n, file_lookup (fs (host s')) d n
               = c ← file_lookup (fs (host s)) d n;
                 if purged now n c then None else Some c)
         ∧ (∀ n e, file_lookup (fs (host s)) d n = Some (JsonEntry e) →
                   version e = Some 1 →
                   now - timestamp e ≤ maxAge →
                   file_lookup (fs (host s')) d n = Some (JsonEntry e))
         ∧ (∀ n, endsWith n ".json" = true →
                 file_lookup (fs (host s)) d n = Some EmptyFile →
                 file_lookup (fs (host s')) d n = Some EmptyFile).
Proof.
  intros s'. split; [|split; [|split]].
  - unfold cleanupOldCacheFiles. by rewrite try_catch_ret_tt.
  - apply (respects_apply (same_on (λ s, memoryCache (mgr s)))).
    respects_auto frame_tac.
  - apply (respects_apply (same_on (λ s, globalState (host s)))).
    respects_auto frame_tac.
  - intros d Hmode Hd Hsub.
    assert (Hall : ∀ n, file_lookup (fs (host s')) d n
                        = c ← file_lookup (fs (host s)) d n;
                          if purged now n c then None else Some c).
    { intros n. by apply cleanupOldCacheFiles_healthy. }
    split; [exact Hall|]. split.
    + intros n e Hf Hv Hage. rewrite Hall, Hf. simpl.
      unfold purged, version_is_1.
      rewrite (bool_decide_eq_true_2 _ Hv).
      rewrite Z.gtb_ltb, (proj2 (Z.ltb_ge _ _) Hage). simpl.
      by rewrite andb_false_r.
    + intros n Hjson Hf. rewrite Hall, Hf. simpl.
      unfold purged. by rewrite andb_false_r.
Qed.

(** *** The circuit breaker of the file tier *)

Global Instance breaker_sticks_preorder : PreOrder breaker_sticks.
Proof. split; unfold breaker_sticks; [intros s|intros s1 s2 s3]; tauto. Qed.

Lemma step_breaker_sticks s s' : step s s' → breaker_sticks s s'.
Proof.
  destruct 1;
    try (apply (respects_apply breaker_sticks);
         by respects_auto ltac:(unfold breaker_sticks; simpl; auto)).
  by unfold breaker_sticks.
Qed.

(** X9.  The breaker is sticky: once file writes are disabled they stay
    disabled through every later step, and every later store leaves the
    file system alone, making no call to it. *)
Theorem breaker_is_sticky s s' :
  fileCacheDisabled (mgr s) = true →
  rtc step s s' →
  fileCacheDisabled (mgr s') = true
  ∧ ∀ p dirs now, fs (host (setCachedDirectories p dirs now s').2)
                  = fs (host s').
Proof.
  intros Hoff Hsteps.
  assert (Hoff' : fileCacheDisabled (mgr s') = true).
  { induction Hsteps as [|s1 s2 s3 Hstep _ IH]; [done|].
    apply IH. by apply (step_breaker_sticks s1). }
  split; [done|].
  intros p dirs now. open_state s'. subst.
  unfold setCachedDirectories. run.
  destruct cacheEnabled0; simpl; [|done].
  by destruct (bool_decide (length dirs ≤ MAX_GLOBALSTATE_ENTRIES)%nat).
Qed.

(** *** The debounce timers *)

Global Instance keeps_timers_preorder : PreOrder keeps_timers.
Proof.
  split.
  - by intros s.
  - intros s1 s2 s3 (? & ? & ?) (? & ? & ?).
    unfold keeps_timers. repeat split; [congruence..|lia].
Qed.

Ltac timers_tac := unfold keeps_timers; simpl; repeat split; (done || lia).

Lemma timer_inv_keeps s s' : keeps_timers s s' → timer_inv s → timer_inv s'.
Proof.
  intros (Hm & Ht & Hn) [Ha Hr Hf]. split.
  - intros t p. rewrite Hm, Ht. apply Ha.
  - intros k t. rewrite Hm, Ht. apply Hr.
  - intros t p. rewrite Ht. intros Htp. specialize (Hf t p Htp). lia.
Qed.

Lemma triggerBackgroundRefresh_timer_inv p s :
  timer_inv s → timer_inv (triggerBackgroundRefresh p s).2.
Proof.
  intros [Ha Hr Hf].
  unfold triggerBackgroundRefresh, setTimeout, clearTimeout.
  cbv [bind get_mgr get_loop modify_mgr modify_loop ret]. simpl.
  destruct (refreshDebounceTimers (mgr s) !! getCacheKey p) as [told|] eqn:Hold;
    simpl; split; simpl.
  - intros t q. rewrite lookup_insert. case_decide as Ht.
    + intros [= <-]. subst t. by rewrite lookup_insert_eq.
    + rewrite lookup_delete. case_decide as Ht'; [done|]. intros Hq.
      rewrite lookup_insert_ne; [by apply Ha|].
      intros Heq. pose proof (Ha t q Hq) as Hrec. congruence.
  - intros k t. rewrite lookup_insert. case_decide as Hk.
    + intros [= <-]. exists p. by rewrite lookup_insert_eq.
    + intros Hrec. destruct (Hr k t Hrec) as (q & Hq & Hkq). exists q.
      split; [|done].
      rewrite lookup_insert_ne by (specialize (Hf t q Hq); lia).
      rewrite lookup_delete_ne; [done|].
      intros <-. destruct (Hr _ _ Hold) as (q' & Hq' & Hkq'). congruence.
  - intros t q. rewrite lookup_insert. case_decide as Ht.
    + intros _. lia.
    + rewrite lookup_delete. case_decide; [done|]. intros Hq.
      specialize (Hf t q Hq). lia.
  - intros t q. rewrite lookup_insert. case_decide as Ht.
    + intros [= <-]. subst t. by rewrite lookup_insert_eq.
    + intros Hq. rewrite lookup_insert_ne; [by apply Ha|].
      intros Heq. pose proof (Ha t q Hq) as Hrec. congruence.
  - intros k t. rewrite lookup_insert. case_decide as Hk.
    + intros [= <-]. exists p. by rewrite lookup_insert_eq.
    + intros Hrec. destruct (Hr k t Hrec) as (q & Hq & Hkq). exists q.
      split; [|done].
      rewrite lookup_insert_ne by (specialize (Hf t q Hq); lia). done.
  - intros t q. rewrite lookup_insert. case_decide as Ht.
    + intros _. lia.
    + intros Hq. specialize (Hf t q Hq). lia.
Qed.

Lemma getCachedDirectoriesWithRefresh_timer_inv p trigger now s :
  timer_inv s → timer_inv (getCachedDirectoriesWithRefresh p trigger now s).2.
Proof.
  intros Hinv. unfold getCachedDirectoriesWithRefresh.
  unfold bind at 1.
  assert (Hk : keeps_timers s (getCachedDirectories p s).2).
  { apply (respects_apply keeps_timers). respects_auto timers_tac. }
  apply (timer_inv_keeps _ _ Hk) in Hinv.
  destruct (getCachedDirectories p s) as [[r|] s1]; simpl in *; [|done].
  unfold shouldRefreshInBackground.
  cbv [bind get_host get_mgr ret when]. simpl.
  repeat (match goal with
          | |- context [if ?b then _ else _] => destruct b; simpl
          end); try done.
  match goal with
  | |- context [triggerBackgroundRefresh p s1] =>
      pose proof (triggerBackgroundRefresh_timer_inv p s1 Hinv) as Hinv';
      destruct (triggerBackgroundRefresh p s1) as [[[]|] s2]; simpl in *; done
  end.
Qed.

Lemma fire_timer_timer_inv t p now s :
  timers (loop s) !! t = Some p →
  timer_inv s → timer_inv (fire_timer t p now s).2.
Proof.
  intros Htp [Ha Hr Hf]. unfold fire_timer, clearTimeout.
  unfold bind at 1. simpl. unfold bind at 1. simpl.
  match goal with
  | |- timer_inv (performBackgroundRefresh_begin p now ?s0).2 =>
      apply (timer_inv_keeps s0);
        [apply (respects_apply keeps_timers); respects_auto timers_tac|]
  end.
  pose proof (Ha t p Htp) as Hrec.
  split; simpl.
  - intros t' q. rewrite lookup_delete. case_decide; [done|]. intros Hq.
    rewrite lookup_delete_ne; [by apply Ha|].
    intros Heq. pose proof (Ha t' q Hq). congruence.
  - intros k t'. rewrite lookup_delete. case_decide as Hk; [done|].
    intros Hrec'. destruct (Hr k t' Hrec') as (q & Hq & Hkq). exists q.
    split; [|done]. rewrite lookup_delete_ne; [done|].
    intros <-. congruence.
  - intros t' q. rewrite lookup_delete. case_decide; [done|]. intros Hq.
    specialize (Hf t' q Hq). lia.
Qed.

(** [dispose] clears the timers it has recorded, one by one. *)
Lemma clearTimeout_loop l s :
  ∃ tm,
    forEach l clearTimeout s
    = (Return tt,
       upd_loop (λ lp, mkLoop tm (suspended lp) (nextHandle lp)) s)
    ∧ ∀ t, tm !! t = if bool_decide (t ∈ l) then None
                     else timers (loop s) !! t.
Proof.
  revert s. induction l as [|x l IH]; intros s.
  - exists (timers (loop s)). split; [by destruct s as [m h []]|done].
  - simpl. unfold bind at 1. unfold clearTimeout at 1. simpl.
    destruct (IH (upd_loop (λ lp, mkLoop (delete x (timers lp))
                                         (suspended lp) (nextHandle lp)) s))
      as (tm & Hrun & Htm).
    exists tm. split; [by rewrite Hrun|].
    intros t. rewrite Htm. simpl.
    destruct (decide (t = x)) as [->|Hne].
    + rewrite (bool_decide_eq_true_2 (x ∈ x :: l)) by left.
      rewrite lookup_delete_eq. by case_bool_decide.
    + rewrite lookup_delete_ne by done.
      assert (bool_decide (t ∈ l) = bool_decide (t ∈ x :: l)) as ->; [|done].
      apply bool_decide_ext. rewrite elem_of_cons. tauto.
Qed.

Lemma dispose_clears s :
  timer_inv s →
  timers (loop (dispose s).2) = ∅
  ∧ refreshDebounceTimers (mgr (dispose s).2) = ∅.
Proof.
  intros [Ha _ _].
  destruct (clearTimeout_loop (map_to_list (refreshDebounceTimers (mgr s))).*2 s)
    as (tm & Hrun & Htm).
  assert (Hd : dispose s
               = (Return tt,
                  upd_mgr (with_refreshDebounceTimers ∅)
                    (upd_loop (λ lp, mkLoop tm (suspended lp) (nextHandle lp))
                              s))).
  { unfold dispose. unfold bind at 1. simpl.
    by rewrite (bind_return _ _ _ _ _ Hrun). }
  rewrite Hd. simpl. split; [|done].
  apply map_eq. intros t. rewrite Htm, lookup_empty.
  case_bool_decide as Hin; [done|].
  destruct (timers (loop s) !! t) as [p|] eqn:Htp; [|done].
  exfalso. apply Hin. apply list_elem_of_fmap.
  exists (getCacheKey p, t). split; [done|].
  apply elem_of_map_to_list. by apply Ha.
Qed.

Lemma step_timer_inv s s' : step s s' → timer_inv s → timer_inv s'.
Proof.
  destruct 1 as [p trigger now s|p dirs now s|s|now s|s|d now s|s|s
                 |t p now s Htp|r c p now s Hrp|dirs mode en bg s].
  - apply getCachedDirectoriesWithRefresh_timer_inv.
  - apply timer_inv_keeps, (respects_apply keeps_timers).
    respects_auto timers_tac.
  - apply timer_inv_keeps, (respects_apply keeps_timers).
    respects_auto timers_tac.
  - apply timer_inv_keeps, (respects_apply keeps_timers).
    respects_auto timers_tac.
  - apply timer_inv_keeps, (respects_apply keeps_timers).
    respects_auto timers_tac.
  - apply timer_inv_keeps, (respects_apply keeps_timers).
    respects_auto timers_tac.
  - apply timer_inv_keeps, (respects_apply keeps_timers).
    respects_auto timers_tac.
  - intros Hinv. destruct (dispose_clears s Hinv) as [Ht Hm].
    split; intros *; rewrite ?Ht, ?Hm, ?lookup_empty; done.
  - by apply fire_timer_timer_inv.
  - apply timer_inv_keeps, (respects_apply keeps_timers).
    respects_auto timers_tac.
  - apply timer_inv_keeps. timers_tac.
Qed.

Lemma reachable_timer_inv s : reachable s → timer_inv s.
Proof.
  induction 1 as [h|s s' _ IH Hstep].
  - assert (Hk : keeps_timers (mkState new_manager h (mkLoop ∅ ∅ 0))
                              (constructor h)).
    { unfold constructor. apply (respects_apply keeps_timers).
      respects_auto timers_tac. }
    apply (timer_inv_keeps _ _ Hk).
    split; simpl; intros *; by rewrite ?lookup_empty.
  - by apply (step_timer_inv s).
Qed.

(** X10.  Debounce: in every reachable state each cache key has at most
    one armed debounce timer, the one recorded for it; a new trigger for
    the key replaces it. *)
Theorem one_timer_per_key s :
  reachable s →
  (∀ k, (length (armed s k) ≤ 1)%nat)
  ∧ (∀ t p, timers (loop s) !! t = Some p →
            refreshDebounceTimers (mgr s) !! getCacheKey p = Some t)
  ∧ (∀ p, let s' := (triggerBackgroundRefresh p s).2 in
          ∃ t, armed s' (getCacheKey p) = [(t, p)]
               ∧ timers (loop s) !! t = None).
Proof.
  intros Hreach. pose proof (reachable_timer_inv s Hreach) as Hinv.
  assert (Hone : ∀ s0 k, timer_inv s0 → (length (armed s0 k) ≤ 1)%nat).
  { intros s0 k [Ha _ _].
    assert (Hnd : NoDup (armed s0 k))
      by apply NoDup_filter, NoDup_map_to_list.
    assert (Hel : ∀ t q, (t, q) ∈ armed s0 k →
                         timers (loop s0) !! t = Some q ∧ getCacheKey q = k).
    { intros t q. unfold armed.
      rewrite list_elem_of_filter, elem_of_map_to_list. simpl. tauto. }
    destruct (armed s0 k) as [|[t1 q1] [|[t2 q2] l]] eqn:Hl; simpl; [lia..|].
    exfalso.
    destruct (Hel t1 q1) as [H1 K1]; [left|].
    destruct (Hel t2 q2) as [H2 K2]; [right; left|].
    pose proof (Ha _ _ H1) as M1. pose proof (Ha _ _ H2) as M2.
    rewrite K1 in M1. rewrite K2 in M2.
    assert (t1 = t2) as -> by congruence.
    assert (q1 = q2) as -> by congruence.
    apply NoDup_cons in Hnd as [Hnd _]. apply Hnd. left. }
  split; [intros k; by apply Hone|]. split; [apply Hinv|].
  intros p s'.
  pose proof (triggerBackgroundRefresh_timer_inv p s Hinv) as Hinv'.
  fold s' in Hinv'.
  exists (nextHandle (loop s)).
  assert (Harmed : timers (loop s') !! nextHandle (loop s) = Some p).
  { unfold s', triggerBackgroundRefresh, setTimeout, clearTimeout.
    cbv [bind get_mgr get_loop modify_mgr modify_loop ret]. simpl.
    destruct (refreshDebounceTimers (mgr s) !! getCacheKey p); simpl;
      by rewrite lookup_insert_eq. }
  split.
  - assert (Hin : (nextHandle (loop s), p) ∈ armed s' (getCacheKey p)).
    { unfold armed. rewrite list_elem_of_filter, elem_of_map_to_list. done. }
    pose proof (Hone s' (getCacheKey p) Hinv') as Hlen.
    destruct (armed s' (getCacheKey p)) as [|x [|y l]]; simpl in Hlen;
      [by apply elem_of_nil in Hin| |lia].
    apply list_elem_of_singleton in Hin. by subst.
  - destruct (timers (loop s) !! nextHandle (loop s)) as [q|] eqn:Hq; [|done].
    pose proof (inv_timer_fresh s Hinv _ _ Hq). lia.
Qed.

(** X11.  [dispose], in a reachable state, leaves no debounce timer armed
    and none recorded; the refreshes in flight, their markers and the three
    tiers are as they were. *)
Theorem dispose_cancels_every_timer s :
  reachable s →
  let s' := (dispose s).2 in
  timers (loop s') = ∅
  ∧ refreshDebounceTimers (mgr s') = ∅
  ∧ suspended (loop s') = suspended (loop s)
  ∧ backgroundRefreshes (mgr s') = backgroundRefreshes (mgr s)
  ∧ tiers s' = tiers s.
Proof.
  intros Hreach s'.
  destruct (dispose_clears s (reachable_timer_inv s Hreach)) as [Ht Hm].
  split; [done|]. split; [done|].
  assert (Hframe :
    same_on (λ s, (suspended (loop s), backgroundRefreshes (mgr s), tiers s))
            s s').
  { apply (respects_apply _). unfold tiers.
    respects_auto ltac:(unfold same_on, tiers; simpl; done). }
  unfold same_on, tiers in *. injection Hframe as H1 H2 H3 H4 H5.
  repeat split; congruence.
Qed.

(** *** The background refresh *)

(** A refresh whose collaborators all answer stores what the search found
    under the key of the corrected parameters. *)
Lemma doBackgroundRefresh_succeeds s c p now paths dirs :
  import_ok c = true →
  validSearchPaths c = Some paths →
  ripgrep_ok c = true →
  (if fzf_ok c then findDirectoriesWithFzf c else findDirectories c)
  = Some dirs →
  doBackgroundRefresh c p now s
  = (Return tt,
     (setCachedDirectories
        (mkSearchParams paths (excludePatterns p) (additionalRipgrepArgs p)
                        (fzfPath p)) dirs now s).2).
Proof.
  destruct c as [imp vp rg fzf withFzf plain]. simpl.
  intros -> -> -> Hfind. unfold doBackgroundRefresh.
  cbv [try_catch try_finally bind await_ok await ret throw]. simpl.
  destruct fzf; simpl; rewrite Hfind; simpl;
    by destruct (setCachedDirectories _ dirs now s) as [[[]|] s1].
Qed.

(** X12.  A refresh that starts records its start time and marks its key:
    while it is in flight no further refresh of the key is due, and once it
    has settled, whether it worked or failed and whatever time its store
    took, the next one is due exactly 10000 ms after that start. *)
Theorem refresh_is_throttled t p now s :
  backgroundRefreshes (mgr s) !! getCacheKey p = None →
  let s1 := (fire_timer t p now s).2 in
  let r := nextHandle (loop s) in
  suspended (loop s1) !! r = Some p
  ∧ (∀ now1, shouldRefreshInBackground p now1 s1 = (Return false, s1))
  ∧ ∀ c now2 now3,
      let s2 := (settle_refresh r c p now2 s1).2 in
      shouldRefreshInBackground p now3 s2
      = (Return (bool_decide (REFRESH_BUFFER_MS ≤ now3 - now)), s2).
Proof.
  intros Hnone s1 r.
  assert (Hs1 :
    backgroundRefreshes (mgr s1) !! getCacheKey p = Some r
    ∧ lastRefreshTimes (mgr s1) !! getCacheKey p = Some now
    ∧ suspended (loop s1) !! r = Some p).
  { unfold s1, r, fire_timer, performBackgroundRefresh_begin, clearTimeout.
    cbv [bind get_mgr get_loop modify_mgr modify_loop ret]. simpl.
    rewrite Hnone.
    rewrite bool_decide_eq_false_2 by (by intros [? ?]). simpl.
    by rewrite !lookup_insert_eq. }
  destruct Hs1 as (Hmark & Hlast & Hsusp).
  split; [done|]. split.
  - intros now1. unfold shouldRefreshInBackground, bind. simpl.
    by rewrite Hmark, bool_decide_eq_true_2.
  - intros c now2 now3 s2.
    destruct (settle_refresh_state r c p now2 s1) as (s3 & (Hb & _ & _) & Hs2).
    assert (Hl : same_on (λ s, lastRefreshTimes (mgr s)) s1 s2).
    { apply (respects_apply _). unfold settle_refresh.
      respects_auto frame_tac. }
    unfold same_on in Hl. fold s2 in Hs2. clearbody s2. subst s2.
    simpl in Hl, Hb.
    unfold shouldRefreshInBackground, bind. simpl.
    rewrite Hl, Hlast, lookup_delete_eq.
    rewrite bool_decide_eq_false_2 by (by intros [? ?]). simpl.
    destruct (Z.ltb_spec (now3 - now) REFRESH_BUFFER_MS).
    + by rewrite bool_decide_eq_false_2 by lia.
    + by rewrite bool_decide_eq_true_2 by lia.
Qed.

(** X13.  A refresh that succeeds stores what the search found under the
    key of the corrected parameters, the valid search paths taking the place
    of [searchPath]: with caching enabled a lookup of the corrected
    parameters returns the fresh list at once, and the entry of any other
    key, that of the original parameters included when the paths differ,
    is as it was.  The refresh itself never throws. *)
Theorem refresh_stores_under_corrected_key s c p now paths dirs :
  cacheEnabled (host s) = true →
  import_ok c = true →
  validSearchPaths c = Some paths →
  ripgrep_ok c = true →
  (if fzf_ok c then findDirectoriesWithFzf c else findDirectories c)
  = Some dirs →
  let p' := mkSearchParams paths (excludePatterns p)
                           (additionalRipgrepArgs p) (fzfPath p) in
  let s' := (doBackgroundRefresh c p now s).2 in
  (doBackgroundRefresh c p now s).1 = Return tt
  ∧ getCachedDirectories p' s' = (Return (Some dirs), s')
  ∧ (∀ q, getCacheKey q ≠ getCacheKey p' →
          memoryCache (mgr s') !! getCacheKey q
          = memoryCache (mgr s) !! getCacheKey q)
  ∧ (paths ≠ searchPath p → getCacheKey p ≠ getCacheKey p').
Proof.
  intros Hon Himp Hvp Hrg Hfind p' s'.
  pose proof (doBackgroundRefresh_succeeds s c p now paths dirs
                Himp Hvp Hrg Hfind) as Hrun.
  unfold s'. rewrite Hrun. simpl. clear s' Hrun.
  destruct (setCachedDirectories_memory_written s p' dirs now Hon)
    as [Hmem Hon'].
  split; [done|]. split; [|split].
  - apply (getCachedDirectories_hit _ _
             (mkEntry dirs now (getCacheKey p') (Some 1)) Hon').
    etrans; [exact (f_equal (λ m, m !! getCacheKey p') Hmem)|].
    apply lookup_insert_eq.
  - intros q Hq.
    etrans; [exact (f_equal (λ m, m !! getCacheKey q) Hmem)|].
    by apply lookup_insert_ne.
  - intros Hne Heq. apply getCacheKey_inj in Heq as (Hs & _). simpl in Hs.
    congruence.
Qed.

(** *** The git repository cache *)

(** X14.  [isGitRepository] caches what it answers: the answer is in the
    cache under the path afterwards.  When the shared expiry has passed the
    call first drops every cached path and restarts the clock at the time of
    the call; otherwise the clock and the other paths stay.  An answer not
    taken from the cache is what the file system says about [path/.git],
    unless the check fails. *)
Theorem isGitRepository_caches_answer s d now :
  let s' := (isGitRepository d now s).2 in
  let expired := now - gitCacheTimestamp (mgr s) >? GIT_CACHE_DURATION in
  ∃ b, (isGitRepository d now s).1 = Return b
       ∧ gitRepoCache (mgr s') !! d = Some b
       ∧ gitCacheTimestamp (mgr s')
         = (if expired then now else gitCacheTimestamp (mgr s))
       ∧ (∀ d', d' ≠ d →
                gitRepoCache (mgr s') !! d'
                = if expired then None else gitRepoCache (mgr s) !! d')
       ∧ (fs_mode (fs (host s)) ≠ Unavailable →
          expired = true ∨ gitRepoCache (mgr s) !! d = None →
          b = entry_exists (fs (host s)) d ".git").
Proof.
  open_state s. unfold isGitRepository. run.
  unfold entry_exists, file_lookup, dir_exists. simpl.
  destruct (now - gitCacheTimestamp0 >? GIT_CACHE_DURATION) eqn:Hexp; simpl.
  - rewrite lookup_empty.
    destruct fs_mode0; simpl; eexists; (split; [reflexivity|]); simpl;
      rewrite lookup_insert_eq; (split; [reflexivity|]);
      (split; [reflexivity|]);
      (split; [by intros d' Hd'; rewrite lookup_insert_ne|]);
      by intros.
  - destruct (gitRepoCache0 !! d) as [b|] eqn:Hc; simpl.
    + exists b. repeat split; try done. by intros _ [|].
    + destruct fs_mode0; simpl; eexists; (split; [reflexivity|]); simpl;
        rewrite lookup_insert_eq; (split; [reflexivity|]);
        (split; [reflexivity|]);
        (split; [by intros d' Hd'; rewrite lookup_insert_ne|]);
        by intros.
Qed.

(** *** The status and the clearing of the cache *)

Lemma rev_app_app (s t acc : string) :
  String.rev_app (s +:+ t) acc = String.rev_app t (String.rev_app s acc).
Proof.
  revert acc. induction s as [|c s IH]; intros acc; [done|].
  rewrite app_cons. simpl. apply IH.
Qed.

(** The name of a cache file ends in [.json]. *)
Lemma endsWith_json (s : string) : endsWith (s +:+ ".json") ".json" = true.
Proof.
  unfold endsWith, String.rev. rewrite rev_app_app. simpl.
  repeat (destruct (Ascii.ascii_dec _ _); [|done]).
  by destruct (String.rev_app s EmptyString).
Qed.

Lemma filter_nil_length {A} (P : A → Prop) `{∀ x, Decision (P x)} (l : list A) :
  (∀ x, x ∈ l → ¬ P x) → length (filter P l) = 0%nat.
Proof.
  intros Hl. induction l as [|x l IH]; [done|].
  rewrite filter_cons_False by (apply Hl; left).
  apply IH. intros y Hy. apply Hl. by right.
Qed.

(** The counts of [getCacheStatus] when the cache directory is resolved
    and the file system answers. *)
Lemma getCacheStatus_run s d :
  fs_mode (fs (host s)) ≠ Unavailable →
  truthy (cacheDir (mgr s)) = Some d →
  (getCacheStatus s).1
  = Return
      (mkStatus
         (size (memoryCache (mgr s)))
         (length (filter (λ key, startsWith key "rip-scope-cache-" = true)
                         (map_to_list (globalState (host s))).*1))
         (match fs_dirs (fs (host s)) !! d with
          | Some files =>
              length (filter (λ file, endsWith file ".json" = true)
                             ((map_to_list files).*1
                              ++ subdirs (fs_dirs (fs (host s))) d))
          | None => 0%nat
          end)).
Proof.
  intros Hmode Hd. unfold getCacheStatus.
  cbv [bind get_mgr get_host try_catch ret]. simpl.
  rewrite (getCacheDir_resolved s d Hd).
  open_state s. run. unfold dir_exists. simpl.
  destruct fs_mode0; [| |done];
    by destruct (fs_dirs0 !! d) as [files|] eqn:Hfiles; simpl;
       rewrite ?Hfiles.
Qed.

(** [getCacheStatus] returns, whatever the file system does. *)
Lemma getCacheStatus_returns s :
  ∃ n, (getCacheStatus s).1
       = Return
           (mkStatus
              (size (memoryCache (mgr s)))
              (length (filter (λ key, startsWith key "rip-scope-cache-" = true)
                              (map_to_list (globalState (host s))).*1))
              n)
       ∧ (fs_mode (fs (host s)) = Unavailable → n = 0%nat).
Proof.
  unfold getCacheStatus. cbv [bind get_mgr get_host try_catch ret]. simpl.
  destruct (fs_mode (fs (host s))) eqn:Hmode.
  1,2: on_calls fail; eexists; (split; [reflexivity|done]).
  open_state s. simpl in Hmode. subst. unfold getCacheDir. run.
  destruct (truthy cacheDir0); simpl; eexists; (split; [reflexivity|done]).
Qed.

(** X15.  [getCacheStatus] never throws and leaves the memory tier and the
    structured tier as they are.  It counts the entries of the memory tier,
    the keys of the structured tier with the cache prefix, and, the cache
    directory being resolved, what that directory lists under a name
    [*.json], files and sub-directories alike: the number of its files
    named [*.json] when no sub-directory is named so.  When the file system
    fails the file count is 0. *)
Theorem getCacheStatus_counts s :
  let s' := (getCacheStatus s).2 in
  ∃ st,
    (getCacheStatus s).1 = Return st
    ∧ memoryEntries st = size (memoryCache (mgr s))
    ∧ diskEntries st
      = length (filter (λ key, startsWith key "rip-scope-cache-" = true)
                       (map_to_list (globalState (host s))).*1)
    ∧ (fs_mode (fs (host s)) = Unavailable → fileEntries st = 0%nat)
    ∧ (∀ d files,
         fs_mode (fs (host s)) ≠ Unavailable →
         truthy (cacheDir (mgr s)) = Some d →
         fs_dirs (fs (host s)) !! d = Some files →
         fileEntries st
         = length (filter (λ file, endsWith file ".json" = true)
                          ((map_to_list files).*1
                           ++ subdirs (fs_dirs (fs (host s))) d))
         ∧ (no_json_subdir (fs (host s)) d = true →
            fileEntries st
            = length (filter (λ file, endsWith file ".json" = true)
                             (map_to_list files).*1)))
    ∧ memoryCache (mgr s') = memoryCache (mgr s)
    ∧ globalState (host s') = globalState (host s).
Proof.
  intros s'.
  assert (Hframe :
    same_on (λ s, (memoryCache (mgr s), globalState (host s))) s s').
  { apply (respects_apply _). respects_auto frame_tac. }
  unfold same_on in Hframe. injection Hframe as Hmem Hgs.
  destruct (getCacheStatus_returns s) as (n & Hret & Hzero).
  eexists. split; [exact Hret|]. simpl.
  split; [done|]. split; [done|]. split; [done|].
  split; [|by split].
  intros d files Hmode Hd Hfiles.
  pose proof (getCacheStatus_run s d Hmode Hd) as Hrun.
  rewrite Hret, Hfiles in Hrun. injection Hrun as Hn.
  split; [done|]. intros Hsub.
  rewrite Hn, filter_app, length_app.
  rewrite (filter_nil_length _ (subdirs (fs_dirs (fs (host s))) d)); [lia|].
  intros x Hx. by rewrite (no_json_subdir_elem _ d x Hsub Hx).
Qed.

(** X16.  After [clearCache], on a healthy file system with the cache
    directory resolved and holding no sub-directory named [*.json], nothing
    of the cache is left: the status counts are all 0 and the lookup of any
    parameters misses. *)
Theorem clearCache_leaves_nothing s d :
  fs_mode (fs (host s)) = Healthy →
  truthy (cacheDir (mgr s)) = Some d →
  no_json_subdir (fs (host s)) d = true →
  let s' := (clearCache s).2 in
  (getCacheStatus s').1 = Return (mkStatus 0 0 0)
  ∧ ∀ p, (getCachedDirectories p s').1 = Return None.
Proof.
  intros Hmode Hd Hsub s'.
  destruct (clearCache_run s) as (g' & Hg' & Hrun).
  set (s2 := upd_host (with_globalState g') (upd_mgr (with_memoryCache ∅) s))
    in Hrun.
  assert (Hframe :
    same_on (λ s, (memoryCache (mgr s), globalState (host s),
                   fs_mode (fs (host s))))
            s2 (clearCache_files s2).2).
  { apply (respects_apply _). unfold clearCache_files.
    respects_auto frame_tac. }
  unfold same_on in Hframe. simpl in Hframe.
  injection Hframe as Hmem Hgs Hfm.
  assert (Hd2 : truthy (cacheDir (mgr s2)) = Some d) by exact Hd.
  assert (Hmode2 : fs_mode (fs (host s2)) = Healthy) by exact Hmode.
  assert (Hcd : cacheDir (mgr (clearCache_files s2).2) = cacheDir (mgr s2)).
  { unfold clearCache_files.
    rewrite (bind_return _ _ _ _ _ (getCacheDir_resolved s2 d Hd2)).
    apply (respects_apply (same_on (λ s, cacheDir (mgr s)))).
    respects_auto frame_tac. }
  assert (Hsub2 : no_json_subdir (fs (host s2)) d = true) by exact Hsub.
  destruct (clear_files_healthy s2 d Hmode2 Hd2 Hsub2) as [Hgone Hsub'].
  assert (Hfiles : ∀ n, endsWith n ".json" = true →
                        file_lookup (fs (host s')) d n = None).
  { intros n Hn. unfold s'. rewrite Hrun. simpl.
    rewrite (Hgone n). by rewrite Hn. }
  assert (Hsubs : ∀ n, n ∈ subdirs (fs_dirs (fs (host s'))) d →
                       endsWith n ".json" = false).
  { intros n. unfold s'. rewrite Hrun. simpl.
    by apply no_json_subdir_elem. }
  assert (Hs' : memoryCache (mgr s') = ∅
                ∧ truthy (cacheDir (mgr s')) = Some d
                ∧ globalState (host s') = g'
                ∧ fs_mode (fs (host s')) = Healthy).
  { unfold s'. rewrite Hrun. simpl. by rewrite Hmem, Hcd, Hgs, Hfm. }
  destruct Hs' as (Hmem' & Hcd' & Hgs' & Hfm').
  split.
  - rewrite (getCacheStatus_run s' d) by (by rewrite ?Hfm').
    rewrite Hmem', Hgs'. f_equal. f_equal.
    + apply filter_nil_length. intros k Hk Hpre.
      apply names_elem in Hk as [e He]. by rewrite Hg', Hpre in He.
    + destruct (fs_dirs (fs (host s')) !! d) as [files|] eqn:Hdir; [|done].
      apply filter_nil_length. intros n Hn Hjson.
      apply elem_of_app in Hn as [Hn|Hn].
      * apply names_elem in Hn as [c Hc].
        specialize (Hfiles n Hjson). unfold file_lookup in Hfiles.
        rewrite Hdir in Hfiles. simpl in Hfiles. congruence.
      * by rewrite (Hsubs n Hn) in Hjson.
  - intros p. apply (lookup_miss s' p d).
    + by rewrite Hmem'.
    + done.
    + apply Hfiles. rewrite <- app_assoc. apply endsWith_json.
Qed.

(** *** The preload *)

Global Instance same_files_preorder : PreOrder same_files.
Proof.
  split; [by intros s|].
  intros s1 s2 s3 H12 H23 d n. by rewrite H23.
Qed.

Global Instance keeps_present_preorder : PreOrder keeps_present.
Proof.
  split; [by intros s k Hk|].
  intros s1 s2 s3 H12 H23 k Hk. by apply H23, H12.
Qed.

Global Instance keeps_preloaded_preorder s0 : PreOrder (keeps_preloaded s0).
Proof. split; unfold keeps_preloaded; [intros s|intros s1 s2 s3]; tauto. Qed.

(** [mkdirSync] creates no file and removes none. *)
Lemma fs_mkdirSync_same_files d : respects same_files (fs_mkdirSync d).
Proof.
  intros s. open_state s. unfold same_files. run.
  unfold dir_exists, file_lookup. simpl. intros d' n.
  destruct fs_mode0; simpl; [|done..].
  destruct (fs_dirs0 !! d) as [files|] eqn:Hd; simpl; [done|].
  destruct (decide (d' = d)) as [->|Hne].
  - by rewrite lookup_insert_eq, Hd.
  - by rewrite lookup_insert_ne.
Qed.

Lemma keeps_preloaded_frame s0 s s' :
  memoryCache (mgr s') = memoryCache (mgr s) →
  globalState (host s') = globalState (host s) →
  same_files s s' →
  keeps_preloaded s0 s s'.
Proof.
  intros Hmem Hgs Hfiles (Hg & Hf & Hm). split; [congruence|]. split.
  - by trans s.
  - by rewrite Hmem.
Qed.

Ltac preloaded_tac :=
  apply keeps_preloaded_frame; [done|done|by intros ? ?].

Lemma fs_mkdirSync_preloaded s0 d :
  respects (keeps_preloaded s0) (FileUtils.mkdirSync d).
Proof.
  intros s. apply keeps_preloaded_frame.
  - apply (respects_apply (same_on (λ s, memoryCache (mgr s)))).
    respects_auto frame_tac.
  - apply (respects_apply (same_on (λ s, globalState (host s)))).
    respects_auto frame_tac.
  - apply fs_mkdirSync_same_files.
Qed.

Lemma getCacheDir_preloaded s0 : respects (keeps_preloaded s0) getCacheDir.
Proof.
  unfold getCacheDir.
  repeat first [apply fs_mkdirSync_preloaded | respects_step preloaded_tac].
Qed.

(** [doPreloadCache] runs the two loop bodies. *)
Lemma doPreloadCache_loops :
  doPreloadCache
  = (h <- get_host ;;
     if negb (cacheEnabled h) then ret tt
     else
       try_catch
         (forEach (map_to_list (globalState h)).*1 preload_key ;;
          cacheDir <- getCacheDir ;;
          e <- FileUtils.existsSync cacheDir ;;
          when e
            (files <- fs_readdirSync cacheDir ;;
             forEach files (preload_file cacheDir)))
         (ret tt)).
Proof. reflexivity. Qed.

Lemma preload_key_preloaded s0 key :
  respects (keeps_preloaded s0) (preload_key key).
Proof.
  intros s (Hg & Hf & Hm). unfold preload_key.
  cbv [when bind get_host ret memory_set modify_mgr]. simpl.
  destruct (startsWith key "rip-scope-cache-") eqn:Hkey; simpl; [|done].
  destruct (globalState (host s) !! key) as [e|] eqn:He; simpl; [|done].
  destruct (version_is_1 e) eqn:Hv; simpl; [|done].
  split; [done|]. split; [done|]. simpl.
  intros k e'. rewrite lookup_insert. case_decide as Hk; [|apply Hm].
  intros [= <-]. right. split; [by apply version_is_1_true|].
  split; [done|]. left. exists key. by rewrite <- Hg.
Qed.

Lemma preload_file_preloaded s0 d file :
  respects (keeps_preloaded s0) (preload_file d file).
Proof.
  intros s (Hg & Hf & Hm). unfold preload_file.
  destruct (endsWith file ".json") eqn:Hjson; simpl; [|done].
  assert (Hsrc : ∀ e, file_lookup (fs (host s)) d file = Some (JsonEntry e) →
                      preload_source s0 (e : CacheEntry)).
  { intros e He. right. exists d, file. by rewrite <- Hf. }
  open_state s. unfold preloaded_from, same_files in *. simpl in *. run.
  destruct fs_mode0; simpl;
    destruct (file_lookup _ d file) as [[| | |e]|] eqn:Hfile; simpl;
    try destruct (version_is_1 e) eqn:Hv; simpl;
    (split; [done|]); (split; [done|]); try done;
    intros k e'; rewrite lookup_insert; (case_decide as Hk; [|apply Hm]);
    intros [= <-]; right; (split; [by apply version_is_1_true|]);
    (split; [done|]); by apply Hsrc.
Qed.

Lemma doPreloadCache_preloaded s0 :
  respects (keeps_preloaded s0) doPreloadCache.
Proof.
  rewrite doPreloadCache_loops.
  repeat first [apply preload_key_preloaded | apply preload_file_preloaded
               | apply getCacheDir_preloaded | respects_step preloaded_tac].
Qed.

(** What follows a call respects [R] from the state the call left. *)
Lemma bind_state_respects (R : relation State) `{!PreOrder R} {A B}
    (m : M A) (k : A → M B) s :
  (∀ a, respects R (k a)) → R (m s).2 (bind m k s).2.
Proof.
  intros Hk. unfold bind. destruct (m s) as [[a|] s1]; simpl; [apply Hk|].
  reflexivity.
Qed.

Ltac present_tac :=
  unfold keeps_present; simpl; intros ? ?; rewrite ?lookup_insert;
  repeat case_decide; eauto.

(** The first loop leaves in memory every entry of version 1 that the
    structured tier holds under a key with the cache prefix. *)
Lemma preload_keys_present l :
  ∀ s key e,
    key ∈ l →
    startsWith key "rip-scope-cache-" = true →
    globalState (host s) !! key = Some e →
    version e = Some 1 →
    is_Some (memoryCache (mgr (forEach l preload_key s).2) !! searchParams e).
Proof.
  induction l as [|x l IH]; intros s key e Hin Hkey He Hv.
  { by apply elem_of_nil in Hin. }
  assert (Hrun : ∃ s1, preload_key x s = (Return tt, s1)
                       ∧ globalState (host s1) = globalState (host s)
                       ∧ (x = key → is_Some (memoryCache (mgr s1)
                                              !! searchParams e))).
  { unfold preload_key.
    cbv [when bind get_host ret memory_set modify_mgr]. simpl.
    destruct (startsWith x "rip-scope-cache-") eqn:Hx; simpl.
    - destruct (globalState (host s) !! x) as [e'|] eqn:He'; simpl.
      + destruct (version_is_1 e') eqn:Hv'; simpl;
          eexists; (split; [reflexivity|]); (split; [done|]);
          intros ->; rewrite He in He'; injection He' as <-.
        * simpl. rewrite lookup_insert_eq. eauto.
        * unfold version_is_1 in Hv'.
          by rewrite bool_decide_eq_true_2 in Hv'.
      + eexists. split; [reflexivity|]. split; [done|].
        intros ->. congruence.
    - eexists. split; [reflexivity|]. split; [done|].
      intros ->. congruence. }
  destruct Hrun as (s1 & Hrun & Hgs & Hhere).
  simpl. rewrite (bind_return _ _ _ _ _ Hrun).
  apply elem_of_cons in Hin as [->|Hin].
  - assert (Hk : keeps_present s1 (forEach l preload_key s1).2).
    { apply (respects_apply keeps_present).
      apply (respects_forEach _). intros y _. unfold preload_key.
      respects_auto present_tac. }
    apply Hk. by apply Hhere.
  - apply (IH s1 key e); try done. by rewrite Hgs.
Qed.

(** X7.  The preload never throws, changes neither the structured tier nor
    any file, and does nothing when caching is disabled.  What it adds to
    the memory tier are entries of version 1 taken from a key of the
    structured tier with the cache prefix or from a [.json] file, each
    filed under its own [searchParams]; and with caching enabled every
    entry of version 1 that the structured tier holds under such a key has
    its [searchParams] in the memory tier afterwards. *)
Theorem preload_loads_valid_entries s :
  let s' := (doPreloadCache s).2 in
  (doPreloadCache s).1 = Return tt
  ∧ (cacheEnabled (host s) = false → s' = s)
  ∧ globalState (host s') = globalState (host s)
  ∧ (∀ d n, file_lookup (fs (host s')) d n = file_lookup (fs (host s)) d n)
  ∧ (∀ k e, memoryCache (mgr s') !! k = Some e →
            memoryCache (mgr s) !! k = Some e
            ∨ (version e = Some 1 ∧ searchParams e = k
               ∧ preload_source s e))
  ∧ (cacheEnabled (host s) = true →
     ∀ key e, startsWith key "rip-scope-cache-" = true →
              globalState (host s) !! key = Some e →
              version e = Some 1 →
              is_Some (memoryCache (mgr s') !! searchParams e)).
Proof.
  intros s'.
  assert (Hsound : preloaded_from s s').
  { apply (respects_apply (keeps_preloaded s)).
    - apply doPreloadCache_preloaded.
    - split; [done|]. split; [done|]. by left. }
  destruct Hsound as (Hg & Hf & Hm).
  split; [|split; [|split; [done|split; [done|split; [done|]]]]].
  - rewrite doPreloadCache_loops. cbv [bind get_host]. simpl.
    destruct (cacheEnabled (host s)); simpl; [|done].
    by rewrite try_catch_ret_tt.
  - intros Hoff. unfold s'. rewrite doPreloadCache_loops.
    cbv [bind get_host]. simpl. by rewrite Hoff.
  - intros Hon key e Hkey He Hv. unfold s'. rewrite doPreloadCache_loops.
    unfold bind at 1. cbv [get_host]. simpl. rewrite Hon. simpl.
    rewrite try_catch_ret_tt. simpl.
    pose proof (preload_keys_present (map_to_list (globalState (host s))).*1
                  s key e) as Hpre.
    assert (Hin : key ∈ (map_to_list (globalState (host s))).*1).
    { apply names_elem. by eexists. }
    specialize (Hpre Hin Hkey He Hv).
    match goal with
    | |- is_Some (memoryCache (mgr (bind ?m ?k s).2) !! _) =>
        assert (Hk : keeps_present (m s).2 (bind m k s).2)
    end.
    { apply (bind_state_respects keeps_present). intros _.
      repeat first [apply (respects_forEach _); intros ? _; unfold preload_file
                   | respects_step present_tac]. }
    by apply Hk.
Qed.

End Further.

(** ** The claims on the example data *)

Section Witnesses.
Local Existing Instance ex_hash.

Lemma ex_s1_reachable : reachable ex_s1.
Proof.
  apply (reachable_step ex_s0); [apply reachable_constructor|].
  apply step_store.
Qed.

Lemma ex_inflight_reachable : reachable ex_inflight.
Proof.
  apply (reachable_step ex_s2).
  - apply (reachable_step ex_s1); [apply ex_s1_reachable|]. apply step_lookup.
  - apply step_timer. by vm_compute.
Qed.



Lemma ex_stale_reachable : reachable ex_stale.
Proof.
  apply (reachable_step ex_git); [|apply step_outside].
  apply (reachable_step (outside ex_repo_dirs Healthy true true ex_s0)).
  - apply (reachable_step ex_s0); [apply reachable_constructor|].
    apply step_outside.
  - apply step_git.
Qed.

Lemma disabled_cache_is_inert_witness :
  cacheEnabled (host ex_off) = false
  ∧ is_Some (memoryCache (mgr ex_off) !! getCacheKey ex_p)
  ∧ getCachedDirectories ex_p ex_off = (Return None, ex_off)
  ∧ setCachedDirectories ex_p [ex_item] 9 ex_off = (Return tt, ex_off).
Proof.
  split; [reflexivity|]. split; [eexists; by vm_compute|].
  apply (disabled_cache_is_inert ex_off). reflexivity.
Defined.

Lemma store_then_lookup_witness :
  cacheEnabled (host ex_s0) = true
  ∧ let s1 := (setCachedDirectories ex_p [ex_item] 5 ex_s0).2 in
    getCachedDirectories ex_p s1 = (Return (Some [ex_item]), s1)
    ∧ ∃ e, memoryCache (mgr s1) !! getCacheKey ex_p = Some e
           ∧ directories e = [ex_item] ∧ version e = Some 1.
Proof.
  split; [reflexivity|].
  apply (store_then_lookup ex_s0 ex_p [ex_item] 5). reflexivity.
Defined.

(** C1 as stated fails when caching is disabled: the store is skipped and
    the lookup returns null. *)
Lemma store_then_lookup_disabled :
  ([ex_item] : list DirectoryItem) ≠ []
  ∧ let s1 := (setCachedDirectories ex_p [ex_item] 5 ex_disabled).2 in
    (getCachedDirectories ex_p s1).1 = Return None
    ∧ (getCachedDirectories ex_p s1).1 ≠ Return (Some [ex_item]).
Proof. split; [done|]. split; [by vm_compute|]. by vm_compute. Qed.

Lemma shouldRefresh_cases_witness :
  is_Some (backgroundRefreshes (mgr ex_inflight) !! getCacheKey ex_p)
  ∧ shouldRefreshInBackground ex_p 1000600 ex_inflight
    = (Return false, ex_inflight).
Proof.
  assert (Hin : is_Some (backgroundRefreshes (mgr ex_inflight)
                         !! getCacheKey ex_p)) by (eexists; by vm_compute).
  split; [exact Hin|].
  exact (proj1 (shouldRefresh_cases ex_inflight ex_p 1000600) Hin).
Defined.

Lemma refresh_failure_leaves_cache_witness :
  refresh_fails ex_failing
  ∧ doBackgroundRefresh ex_failing ex_p 1000900 ex_inflight
    = (Return tt, ex_inflight)
  ∧ (settle_refresh 1 ex_failing ex_p 1000900 ex_inflight).1 = Return tt
  ∧ tiers (settle_refresh 1 ex_failing ex_p 1000900 ex_inflight).2
    = tiers ex_inflight.
Proof.
  assert (Hf : refresh_fails ex_failing) by (by do 3 right).
  split; [exact Hf|].
  exact (refresh_failure_leaves_cache ex_inflight 1 ex_failing ex_p 1000900 Hf).
Defined.

Lemma one_refresh_per_key_witness :
  reachable ex_inflight
  ∧ (∀ k, (length (in_flight ex_inflight k) ≤ 1)%nat)
  ∧ (∀ p now,
       in_flight ex_inflight (getCacheKey p) ≠ [] →
       performBackgroundRefresh_begin p now ex_inflight
       = (Return tt, ex_inflight))
  ∧ (∀ r c p now,
       suspended (loop ex_inflight) !! r = Some p →
       let s' := (settle_refresh r c p now ex_inflight).2 in
       backgroundRefreshes (mgr s') !! getCacheKey p = None
       ∧ in_flight s' (getCacheKey p) = []).
Proof.
  split; [apply ex_inflight_reachable|].
  apply (one_refresh_per_key ex_inflight). apply ex_inflight_reachable.
Defined.

Lemma getCacheKey_order_sensitive_witness :
  let p1 := mkSearchParams ["/a"; "/b"] ["x"] [] "fzf" in
  let p2 := mkSearchParams ["/b"; "/a"] ["x"] [] "fzf" in
  Permutation (searchPath p1) (searchPath p2)
  ∧ searchPath p1 ≠ searchPath p2
  ∧ getCacheKey p1 ≠ getCacheKey p2.
Proof.
  intros p1 p2.
  assert (Hp : Permutation (searchPath p1) (searchPath p2))
    by apply perm_swap.
  assert (Hne : searchPath p1 ≠ searchPath p2) by done.
  split; [exact Hp|]. split; [exact Hne|].
  apply (proj2 (getCacheKey_order_sensitive p1 p2) Hp);
    [reflexivity|reflexivity|by left].
Defined.






Lemma isGitRepository_negative_cached_witness :
  gitRepoCache (mgr ex_s0) !! "/nowhere" = None
  ∧ entry_exists (fs (host ex_s0)) "/nowhere" ".git" = false
  ∧ let s1 := (isGitRepository "/nowhere" 1000000 ex_s0).2 in
    (isGitRepository "/nowhere" 1000000 ex_s0).1 = Return false
    ∧ gitRepoCache (mgr s1) !! "/nowhere" = Some false
    ∧ isGitRepository "/nowhere" 1000100 s1 = (Return false, s1).
Proof.
  assert (Hmiss : gitRepoCache (mgr ex_s0) !! "/nowhere" = None)
    by by vm_compute.
  assert (Hno : entry_exists (fs (host ex_s0)) "/nowhere" ".git" = false)
    by by vm_compute.
  split; [exact Hmiss|]. split; [exact Hno|]. intros s1.
  destruct (proj2 (isGitRepository_negative_cached ex_s0 "/nowhere" 1000000)
              (or_intror Hmiss) (or_intror Hno))
    as (Hret & Hcached & Hsecond).
  split; [exact Hret|]. split; [exact Hcached|].
  by vm_compute.
Defined.

(** C9 as stated fails on a path already in the cache: a repository that
    was there when checked and has been removed since is still reported
    from the cache. *)
Lemma isGitRepository_stale_positive :
  reachable ex_stale
  ∧ dir_exists (fs (host ex_stale)) "/repo" = false
  ∧ entry_exists (fs (host ex_stale)) "/repo" ".git" = false
  ∧ (isGitRepository "/repo" 1000100 ex_stale).1 = Return true
  ∧ (isGitRepository "/repo" 1000100 ex_stale).1 ≠ Return false.
Proof.
  split; [apply ex_stale_reachable|].
  repeat split; by vm_compute.
Qed.

(** A listing names the sub-directories too: one named [*.json] is
    counted by [getCacheStatus], and [clearCache], which cannot unlink it,
    leaves it there. *)
Lemma listing_names_subdirectories :
  (fs_readdirSync "/gs" ex_nested).1 = Return ["cache"]
  ∧ (∃ l, (fs_readdirSync "/gs/cache" ex_nested).1 = Return l
          ∧ "a.json" ∈ l ∧ ex_file ex_p ∈ l ∧ length l = 2%nat)
  ∧ no_json_subdir (fs (host ex_nested)) "/gs/cache" = false
  ∧ (getCacheStatus ex_nested).1 = Return (mkStatus 0 0 2)
  ∧ (clearCache ex_nested).1 = Return tt
  ∧ entry_exists (fs (host (clearCache ex_nested).2)) "/gs/cache" "a.json"
    = true
  ∧ (∃ st, (getCacheStatus (clearCache ex_nested).2).1 = Return st
           ∧ fileEntries st ≠ 0%nat).
Proof.
  split; [by vm_compute|]. split.
  { eexists. split; [by vm_compute|].
    split; [|split; [|done]]; apply list_elem_of_In; vm_compute; tauto. }
  split; [by vm_compute|]. split; [by vm_compute|].
  split; [by vm_compute|]. split; [by vm_compute|].
  eexists. split; [by vm_compute|]. done.
Qed.

(** ** The further properties on the example data *)

Lemma ex_s2_reachable : reachable ex_s2.
Proof.
  apply (reachable_step ex_s1); [apply ex_s1_reachable|]. apply step_lookup.
Qed.

Lemma cache_key_identifies_search_witness :
  let p2 := mkSearchParams ["/home/u"] ["node_modules"] [] "/usr/bin/fzf" in
  fzfPath ex_p ≠ fzfPath p2 ∧ getCacheKey ex_p = getCacheKey p2.
Proof.
  intros p2. split; [done|].
  apply (proj2 (cache_key_identifies_search ex_p p2)).
  split; [reflexivity|]. split; reflexivity.
Defined.

Lemma getCacheDir_is_cached_witness :
  let s := mkState new_manager ex_bare (mkLoop ∅ ∅ 0) in
  let s' := (getCacheDir s).2 in
  let s'' := outside ∅ Unavailable true true s' in
  getCacheDir s = (Return "/gs/cache", s')
  ∧ getCacheDir s'' = (Return "/gs/cache", s'').
Proof.
  intros s s' s''.
  assert (Hrun : getCacheDir s = (Return "/gs/cache", s')) by by vm_compute.
  split; [exact Hrun|].
  exact (getCacheDir_is_cached s "/gs/cache" s' Hrun ∅ Unavailable true true).
Defined.


Lemma lookup_is_repeatable_witness :
  let s' := (getCachedDirectories ex_q ex_old).2 in
  let s'' := outside ∅ Unavailable true false s' in
  memoryCache (mgr ex_old) !! getCacheKey ex_q = None
  ∧ getCachedDirectories ex_q ex_old = (Return (Some [ex_item]), s')
  ∧ getCachedDirectories ex_q s'' = (Return (Some [ex_item]), s'').
Proof.
  intros s' s''.
  assert (Hrun : getCachedDirectories ex_q ex_old
                 = (Return (Some [ex_item]), s')) by by vm_compute.
  split; [by vm_compute|]. split; [exact Hrun|].
  exact (lookup_is_repeatable ex_old ex_q [ex_item] s' Hrun ∅ Unavailable false).
Defined.


Lemma preload_loads_valid_entries_witness :
  let key := "rip-scope-cache-" +:+ generateHash (getCacheKey ex_p) in
  cacheEnabled (host ex_restarted) = true
  ∧ startsWith key "rip-scope-cache-" = true
  ∧ globalState (host ex_restarted) !! key = Some ex_stored
  ∧ version ex_stored = Some 1
  ∧ memoryCache (mgr ex_restarted) = ∅
  ∧ is_Some (memoryCache (mgr (doPreloadCache ex_restarted).2)
             !! getCacheKey ex_p).
Proof.
  intros key.
  assert (Hon : cacheEnabled (host ex_restarted) = true) by by vm_compute.
  assert (Hkey : startsWith key "rip-scope-cache-" = true) by by vm_compute.
  assert (He : globalState (host ex_restarted) !! key = Some ex_stored)
    by by vm_compute.
  assert (Hv : version ex_stored = Some 1) by reflexivity.
  split; [exact Hon|]. split; [exact Hkey|]. split; [exact He|].
  split; [exact Hv|]. split; [by vm_compute|].
  destruct (preload_loads_valid_entries ex_restarted)
    as (_ & _ & _ & _ & _ & Hloaded).
  exact (Hloaded Hon key ex_stored Hkey He Hv).
Defined.

Lemma cleanup_deletes_exactly_the_stale_witness :
  fs_mode (fs (host ex_old)) = Healthy
  ∧ truthy (cacheDir (mgr ex_old)) = Some "/gs/cache"
  ∧ no_json_subdir (fs (host ex_old)) "/gs/cache" = true
  ∧ file_lookup (fs (host ex_old)) "/gs/cache" (ex_file ex_q)
    = Some (JsonEntry ex_v1)
  ∧ version ex_v1 = Some 1
  ∧ 100 - timestamp ex_v1 ≤ maxAge
  ∧ file_lookup (fs (host (cleanupOldCacheFiles 100 ex_old).2))
                "/gs/cache" (ex_file ex_q)
    = Some (JsonEntry ex_v1).
Proof.
  assert (Hm : fs_mode (fs (host ex_old)) = Healthy) by by vm_compute.
  assert (Hd : truthy (cacheDir (mgr ex_old)) = Some "/gs/cache")
    by by vm_compute.
  assert (Hf : file_lookup (fs (host ex_old)) "/gs/cache" (ex_file ex_q)
               = Some (JsonEntry ex_v1)) by by vm_compute.
  assert (Hv : version ex_v1 = Some 1) by reflexivity.
  assert (Hage : 100 - timestamp ex_v1 ≤ maxAge) by by vm_compute.
  assert (Hsub : no_json_subdir (fs (host ex_old)) "/gs/cache" = true)
    by by vm_compute.
  split; [exact Hm|]. split; [exact Hd|]. split; [exact Hsub|].
  split; [exact Hf|]. split; [exact Hv|]. split; [exact Hage|].
  destruct (cleanup_deletes_exactly_the_stale 100 ex_old)
    as (_ & _ & _ & Hfiles).
  destruct (Hfiles "/gs/cache" Hm Hd Hsub) as (_ & Hkept & _).
  exact (Hkept (ex_file ex_q) ex_v1 Hf Hv Hage).
Defined.

Lemma breaker_is_sticky_witness :
  let s' := (clearCache ex_tripped).2 in
  fileCacheDisabled (mgr ex_tripped) = true
  ∧ rtc step ex_tripped s'
  ∧ fileCacheDisabled (mgr s') = true
  ∧ fs (host (setCachedDirectories ex_p ex_big 9 s').2) = fs (host s').
Proof.
  intros s'.
  assert (Hoff : fileCacheDisabled (mgr ex_tripped) = true) by by vm_compute.
  assert (Hsteps : rtc step ex_tripped s') by apply rtc_once, step_clear.
  split; [exact Hoff|]. split; [exact Hsteps|].
  destruct (breaker_is_sticky ex_tripped s' Hoff Hsteps) as [Hoff' Hfs].
  split; [exact Hoff'|apply Hfs].
Defined.

Lemma one_timer_per_key_witness :
  reachable ex_s2
  ∧ timers (loop ex_s2) !! 0%nat = Some ex_p
  ∧ (length (armed ex_s2 (getCacheKey ex_p)) ≤ 1)%nat
  ∧ refreshDebounceTimers (mgr ex_s2) !! getCacheKey ex_p = Some 0%nat
  ∧ ∃ t, armed (triggerBackgroundRefresh ex_p ex_s2).2 (getCacheKey ex_p)
         = [(t, ex_p)]
         ∧ timers (loop ex_s2) !! t = None.
Proof.
  assert (Harmed : timers (loop ex_s2) !! 0%nat = Some ex_p) by by vm_compute.
  split; [apply ex_s2_reachable|]. split; [exact Harmed|].
  destruct (one_timer_per_key ex_s2 ex_s2_reachable) as (Hone & Hrec & Hnew).
  split; [apply Hone|]. split; [exact (Hrec 0%nat ex_p Harmed)|].
  apply Hnew.
Defined.

Lemma dispose_cancels_every_timer_witness :
  reachable ex_s2
  ∧ timers (loop ex_s2) !! 0%nat = Some ex_p
  ∧ timers (loop (dispose ex_s2).2) = ∅
  ∧ refreshDebounceTimers (mgr (dispose ex_s2).2) = ∅
  ∧ tiers (dispose ex_s2).2 = tiers ex_s2.
Proof.
  split; [apply ex_s2_reachable|]. split; [by vm_compute|].
  destruct (dispose_cancels_every_timer ex_s2 ex_s2_reachable)
    as (Ht & Hm & _ & _ & Htiers).
  split; [exact Ht|]. split; [exact Hm|exact Htiers].
Defined.

Lemma refresh_is_throttled_witness :
  let s1 := (fire_timer 0 ex_p 1000500 ex_s2).2 in
  let s2 := (settle_refresh 1 ex_working ex_p 1002000 s1).2 in
  backgroundRefreshes (mgr ex_s2) !! getCacheKey ex_p = None
  ∧ nextHandle (loop ex_s2) = 1%nat
  ∧ shouldRefreshInBackground ex_p 1000600 s1 = (Return false, s1)
  ∧ shouldRefreshInBackground ex_p 1010499 s2 = (Return false, s2)
  ∧ shouldRefreshInBackground ex_p 1010500 s2 = (Return true, s2).
Proof.
  intros s1 s2.
  assert (Hnone : backgroundRefreshes (mgr ex_s2) !! getCacheKey ex_p = None)
    by by vm_compute.
  split; [exact Hnone|]. split; [by vm_compute|].
  destruct (refresh_is_throttled 0 ex_p 1000500 ex_s2 Hnone)
    as (_ & Hflight & Hafter).
  split; [apply Hflight|]. split.
  - exact (Hafter ex_working 1002000 1010499).
  - exact (Hafter ex_working 1002000 1010500).
Defined.

Lemma refresh_stores_under_corrected_key_witness :
  let s' := (doBackgroundRefresh ex_working ex_p 1002000 ex_inflight).2 in
  cacheEnabled (host ex_inflight) = true
  ∧ validSearchPaths ex_working = Some (searchPath ex_corrected)
  ∧ searchPath ex_corrected ≠ searchPath ex_p
  ∧ getCachedDirectories ex_corrected s' = (Return (Some [ex_item]), s')
  ∧ memoryCache (mgr s') !! getCacheKey ex_p
    = memoryCache (mgr ex_inflight) !! getCacheKey ex_p.
Proof.
  intros s'.
  assert (Hne : searchPath ex_corrected ≠ searchPath ex_p) by done.
  split; [by vm_compute|]. split; [reflexivity|]. split; [exact Hne|].
  destruct (refresh_stores_under_corrected_key ex_inflight ex_working ex_p
              1002000 ["/home/u"; "/srv"] [ex_item]
              ltac:(by vm_compute) eq_refl eq_refl eq_refl eq_refl)
    as (_ & Hhit & Hother & Hkeys).
  split; [exact Hhit|].
  apply (Hother ex_p). apply Hkeys. exact Hne.
Defined.

Lemma isGitRepository_caches_answer_witness :
  let s := outside ex_repo_dirs Healthy true true ex_s0 in
  fs_mode (fs (host s)) ≠ Unavailable
  ∧ gitRepoCache (mgr s) !! "/repo" = None
  ∧ entry_exists (fs (host s)) "/repo" ".git" = true
  ∧ (isGitRepository "/repo" 1000000 s).1 = Return true
  ∧ gitRepoCache (mgr (isGitRepository "/repo" 1000000 s).2) !! "/repo"
    = Some true.
Proof.
  intros s.
  assert (Hmode : fs_mode (fs (host s)) ≠ Unavailable) by done.
  assert (Hmiss : gitRepoCache (mgr s) !! "/repo" = None) by by vm_compute.
  assert (Hgit : entry_exists (fs (host s)) "/repo" ".git" = true)
    by by vm_compute.
  split; [exact Hmode|]. split; [exact Hmiss|]. split; [exact Hgit|].
  destruct (isGitRepository_caches_answer s "/repo" 1000000)
    as (b & Hret & Hcached & _ & _ & Hfs).
  rewrite (Hfs Hmode (or_intror Hmiss)), Hgit in Hret, Hcached.
  split; [exact Hret|exact Hcached].
Defined.

Lemma getCacheStatus_counts_witness :
  let files : gmap string FileContent :=
    {[ ex_file ex_p := JsonEntry ex_v2; ex_file ex_q := JsonEntry ex_v1 ]} in
  fs_mode (fs (host ex_old)) ≠ Unavailable
  ∧ truthy (cacheDir (mgr ex_old)) = Some "/gs/cache"
  ∧ fs_dirs (fs (host ex_old)) !! "/gs/cache" = Some files
  ∧ no_json_subdir (fs (host ex_old)) "/gs/cache" = true
  ∧ ∃ st, (getCacheStatus ex_old).1 = Return st
          ∧ memoryEntries st = 0%nat
          ∧ fileEntries st = 2%nat.
Proof.
  intros files.
  assert (Hmode : fs_mode (fs (host ex_old)) ≠ Unavailable) by done.
  assert (Hd : truthy (cacheDir (mgr ex_old)) = Some "/gs/cache")
    by by vm_compute.
  assert (Hfiles : fs_dirs (fs (host ex_old)) !! "/gs/cache" = Some files)
    by by vm_compute.
  assert (Hsub : no_json_subdir (fs (host ex_old)) "/gs/cache" = true)
    by by vm_compute.
  split; [exact Hmode|]. split; [exact Hd|]. split; [exact Hfiles|].
  split; [exact Hsub|].
  destruct (getCacheStatus_counts ex_old)
    as (st & Hret & Hmem & _ & _ & Hcount & _).
  exists st. split; [exact Hret|]. split.
  - rewrite Hmem. by vm_compute.
  - rewrite (proj2 (Hcount "/gs/cache" files Hmode Hd Hfiles) Hsub).
    by vm_compute.
Defined.

Lemma clearCache_leaves_nothing_witness :
  fs_mode (fs (host ex_s1)) = Healthy
  ∧ truthy (cacheDir (mgr ex_s1)) = Some "/gs/cache"
  ∧ no_json_subdir (fs (host ex_s1)) "/gs/cache" = true
  ∧ (getCacheStatus ex_s1).1 = Return (mkStatus 1 1 1)
  ∧ (getCacheStatus (clearCache ex_s1).2).1 = Return (mkStatus 0 0 0)
  ∧ (getCachedDirectories ex_p (clearCache ex_s1).2).1 = Return None.
Proof.
  split; [reflexivity|]. split; [reflexivity|]. split; [reflexivity|].
  split; [by vm_compute|].
  destruct (clearCache_leaves_nothing ex_s1 "/gs/cache" eq_refl eq_refl
              eq_refl)
    as [Hstatus Hmiss].
  split; [exact Hstatus|apply Hmiss].
Defined.

End Witnesses.
